(** * purify: [Result] and [ResultAsync]

    A shallow embedding of [Result.ts] (the two-variant outcome value) and of
    [ResultAsync.ts] (the lazy asynchronous outcome built on promises), with
    the properties of the two layers proved against it.

    Conventions of the embedding.

    - Side effects of callbacks and producers act on an abstract [World];
      "[f] is never invoked" is read as "for every [f], the world is left
      untouched", and the call counters of the tests are recovered by taking
      a counter for the world.
    - A JavaScript call is a [Sync] computation: it transforms the world and
      either returns or throws.
    - A promise is a resumption: it is settled, or it is [Pending] and holds
      the code that the event loop will run on its next turn.  [drain] runs
      the event loop until the promise settles.
    - Where the host resolves a promise with a value ([Promise.resolve], the
      value a reaction or an [async] function returns) the value goes through
      [resolve] of the class [Resolve]: a thenable is followed, anything else
      fulfils at once.  A payload type without an instance of its own holds
      no thenables.  A value obtained by awaiting is never a thenable, the
      host having followed it already: where such a value is handed on,
      nothing is left to follow.  The reason of a rejection may be one.
    - [Promise.all] is taken under every scheduling the host may choose: the
      runs it waits for are [stagger]ed by an arbitrary [timing]. *)

From Stdlib Require Import List ZArith String Bool Lia.
Import ListNotations.

Local Open Scope string_scope.

(* ================================================================= *)
(** ** JavaScript values and the two equalities on them *)

(** The payloads [equals] is exercised on.  An object carries its reference
    (identity) next to its own enumerable properties. *)
#[local] Unset Elimination Schemes.
Inductive JsValue : Type :=
| JsUndefined
| JsNull
| JsBool (b : bool)
| JsNumber (n : Z)
| JsNaN
| JsString (s : string)
| JsObject (ref : nat) (props : list (string * JsValue)).
#[local] Set Elimination Schemes.

(** What [===] needs of a payload type. *)
Class StrictEq (A : Type) : Type := strict_eq : A -> A -> bool.

(** [a === b] on JavaScript values: primitives by value, [NaN] equal to
    nothing, objects by reference. *)
Definition js_strict_eq (a b : JsValue) : bool :=
  match a, b with
  | JsUndefined, JsUndefined => true
  | JsNull, JsNull => true
  | JsBool x, JsBool y => Bool.eqb x y
  | JsNumber x, JsNumber y => Z.eqb x y
  | JsString x, JsString y => String.eqb x y
  | JsObject r _, JsObject r' _ => Nat.eqb r r'
  | _, _ => false
  end.

#[export] Instance JsValue_StrictEq : StrictEq JsValue := js_strict_eq.
#[export] Instance Z_StrictEq : StrictEq Z := Z.eqb.
#[export] Instance string_StrictEq : StrictEq string := String.eqb.

(** Structural (deep) equality, the equality of the specification's data
    model: same shape and same leaves, whatever the references. *)
Fixpoint js_struct_eq (a b : JsValue) : bool :=
  match a, b with
  | JsUndefined, JsUndefined => true
  | JsNull, JsNull => true
  | JsBool x, JsBool y => Bool.eqb x y
  | JsNumber x, JsNumber y => Z.eqb x y
  | JsNaN, JsNaN => true
  | JsString x, JsString y => String.eqb x y
  | JsObject _ ps, JsObject _ qs =>
      (fix props_eq (ps qs : list (string * JsValue)) : bool :=
         match ps, qs with
         | [], [] => true
         | (k, x) :: ps', (k', y) :: qs' =>
             String.eqb k k' && js_struct_eq x y && props_eq ps' qs'
         | _, _ => false
         end) ps qs
  | _, _ => false
  end.

(** Primitive values other than [NaN]. *)
Definition js_primitive (a : JsValue) : bool :=
  match a with
  | JsNaN | JsObject _ _ => false
  | _ => true
  end.

(* ================================================================= *)
(** ** Synchronous calls *)

(** How a call ends. *)
Inductive Completion (X A : Type) : Type :=
| Normal (a : A)
| Thrown (x : X).
Arguments Normal {X A} a.
Arguments Thrown {X A} x.

(** The outcome value of [Result.ts]. *)
Inductive Result (E T : Type) : Type :=
| Err (e : E)
| Ok (v : T).
Arguments Err {E T} e.
Arguments Ok {E T} v.

Section Calls.
Context {World : Type}.

(** A call that may touch the world and may throw a value of type [X]. *)
Definition Sync (X A : Type) : Type := World -> World * Completion X A.

Definition ret {X A} (a : A) : Sync X A := fun w => (w, Normal a).

Definition throw {X A} (x : X) : Sync X A := fun w => (w, Thrown x).

Definition bind {X A B} (c : Sync X A) (k : A -> Sync X B) : Sync X B :=
  fun w =>
    match c w with
    | (w', Normal a) => k a w'
    | (w', Thrown x) => (w', Thrown x)
    end.

End Calls.

Arguments Sync World X A : clear implicits.

(** A world with a call counter in front, and a callback made to count its
    calls the way a test mock does. *)
Definition counted {World X A B} (f : A -> Sync World X B)
  : A -> Sync (nat * World) X B :=
  fun a cw =>
    match f a (snd cw) with
    | (w', c) => ((S (fst cw), w'), c)
    end.

(* ================================================================= *)
(** ** Result.ts *)

Module Result.
Section Methods.
Context {World : Type}.

Definition isErr {E T} (this : Result E T) : bool :=
  match this with Err _ => true | Ok _ => false end.

Definition isOk {E T} (this : Result E T) : bool :=
  match this with Err _ => false | Ok _ => true end.

(** [extract(): E | T]. *)
Definition extract {E T} (this : Result E T) : E + T :=
  match this with Err e => inl e | Ok v => inr v end.

Definition bimap {E T E2 T2} (f : E -> E2) (g : T -> T2) (this : Result E T)
  : Result E2 T2 :=
  match this with
  | Ok v => Ok (g v)
  | Err e => Err (f e)
  end.

Definition map {E T T2} (f : T -> T2) (this : Result E T) : Result E T2 :=
  match this with
  | Ok v => Ok (f v)
  | Err e => Err e
  end.

Definition mapErr {E T E2} (f : E -> E2) (this : Result E T) : Result E2 T :=
  match this with
  | Ok v => Ok v
  | Err e => Err (f e)
  end.

(** [Ok.ap]: [other.isOk() ? this.map(other.extract()) : other];
    [Err.ap]: [other.isErr() ? other : this]. *)
Definition ap {E T T2} (this : Result E T) (other : Result E (T -> T2))
  : Result E T2 :=
  match this with
  | Ok v =>
      match other with
      | Ok f => map f (Ok v)
      | Err e' => Err e'
      end
  | Err e =>
      match other with
      | Err e' => Err e'
      | Ok _ => Err e
      end
  end.

(** [Ok.equals]: [other.isOk() ? this.__value === other.extract() : false];
    [Err.equals]: [other.isErr() ? other.extract() === this.__value : false]. *)
Definition equals {E T} `{StrictEq E} `{StrictEq T} (this other : Result E T)
  : bool :=
  match this with
  | Ok v =>
      match other with
      | Ok v' => strict_eq v v'
      | Err _ => false
      end
  | Err e =>
      match other with
      | Err e' => strict_eq e' e
      | Ok _ => false
      end
  end.

Definition chain {E T T2} (f : T -> Result E T2) (this : Result E T)
  : Result E T2 :=
  match this with
  | Ok v => f v
  | Err e => Err e
  end.

(** [Ok.alt(_)] returns [this]; [Err.alt(other)] returns [other]. *)
Definition alt {E T} (this other : Result E T) : Result E T :=
  match this with
  | Ok v => Ok v
  | Err _ => other
  end.

(** [Ok.altLazy(_)] returns [this]; [Err.altLazy(other)] returns [other()]. *)
Definition altLazy {X E T} (this : Result E T) (other : Sync World X (Result E T))
  : Sync World X (Result E T) :=
  match this with
  | Ok v => ret (Ok v)
  | Err _ => other
  end.

(** [Ok.ifErr(_)] returns [this]; [Err.ifErr(effect)] is
    [effect(this.__value), this]. *)
Definition ifErr {X E T U} (this : Result E T) (effect : E -> Sync World X U)
  : Sync World X (Result E T) :=
  match this with
  | Ok v => ret (Ok v)
  | Err e => bind (effect e) (fun _ => ret (Err e))
  end.

(** [Ok.ifOk(effect)] is [effect(this.__value), this]; [Err.ifOk(_)] returns
    [this]. *)
Definition ifOk {X E T U} (this : Result E T) (effect : T -> Sync World X U)
  : Sync World X (Result E T) :=
  match this with
  | Ok v => bind (effect v) (fun _ => ret (Ok v))
  | Err e => ret (Err e)
  end.

Definition swap {E T} (this : Result E T) : Result T E :=
  match this with
  | Ok v => Err v
  | Err e => Ok e
  end.

(** The loop of [Result.sequence]; [res.push(x)] appends. *)
Fixpoint sequence_loop {E T} (results : list (Result E T)) (res : list T)
  : Result E (list T) :=
  match results with
  | [] => Ok res
  | Err e :: _ => Err e
  | Ok v :: rest => sequence_loop rest (res ++ [v])
  end.

Definition sequence {E T} (results : list (Result E T)) : Result E (list T) :=
  sequence_loop results [].

Fixpoint errs {E T} (l : list (Result E T)) : list E :=
  match l with
  | [] => []
  | Err e :: rest => e :: errs rest
  | Ok _ :: rest => errs rest
  end.

Fixpoint oks {E T} (l : list (Result E T)) : list T :=
  match l with
  | [] => []
  | Err _ :: rest => oks rest
  | Ok v :: rest => v :: oks rest
  end.

(** [Result.of]. *)
Definition of_ {E T} (value : T) : Result E T := Ok value.

(** [Ok.chainErr(_)] returns [this]; [Err.chainErr(f)] returns
    [f(this.__value)]. *)
Definition chainErr {E T E2} (f : E -> Result E2 T) (this : Result E T)
  : Result E2 T :=
  match this with
  | Ok v => Ok v
  | Err e => f e
  end.

(** [Ok.join()] returns [this.__value]; [Err.join()] returns [this]. *)
Definition join {E T} (this : Result E (Result E T)) : Result E T :=
  match this with
  | Ok inner => inner
  | Err e => Err e
  end.

(** [Ok.reduce(reducer, initialValue)] is [reducer(initialValue, this.__value)];
    [Err.reduce(_, initialValue)] is [initialValue]. *)
Definition reduce {E T U} (reducer : U -> T -> U) (initialValue : U)
  (this : Result E T) : U :=
  match this with
  | Ok v => reducer initialValue v
  | Err _ => initialValue
  end.

(** [Ok.extend(f)] is [ok(f(this))]; [Err.extend(_)] returns [this]. *)
Definition extend {E T T2} (f : Result E T -> T2) (this : Result E T)
  : Result E T2 :=
  match this with
  | Ok v => Ok (f (Ok v))
  | Err e => Err e
  end.

Definition errOrDefault {E T} (defaultValue : E) (this : Result E T) : E :=
  match this with
  | Ok _ => defaultValue
  | Err e => e
  end.

Definition orDefault {E T} (defaultValue : T) (this : Result E T) : T :=
  match this with
  | Ok v => v
  | Err _ => defaultValue
  end.

(** [Ok.orDefaultLazy(_)] returns [this.__value]; [Err.orDefaultLazy(g)]
    returns [g()]. *)
Definition orDefaultLazy {X E T} (getDefaultValue : Sync World X T)
  (this : Result E T) : Sync World X T :=
  match this with
  | Ok v => ret v
  | Err _ => getDefaultValue
  end.

(** [Ok.errOrDefaultLazy(g)] returns [g()]; [Err.errOrDefaultLazy(_)] returns
    [this.__value]. *)
Definition errOrDefaultLazy {X E T} (getDefaultValue : Sync World X E)
  (this : Result E T) : Sync World X E :=
  match this with
  | Ok _ => getDefaultValue
  | Err e => ret e
  end.

(** [Result.encase]: [try { return ok(throwsF()) } catch (e) { return err(e) }]. *)
Definition encase {X E T} (throwsF : Sync World E T) : Sync World X (Result E T) :=
  fun w =>
    match throwsF w with
    | (w', Normal v) => (w', Normal (Ok v))
    | (w', Thrown e) => (w', Normal (Err e))
    end.

(** The message of the generic fault of [unsafeCoerce]. *)
Definition unsafeCoerce_message : string := "Result#unsafeCoerce was ran on a Err".

(** [Ok.unsafeCoerce()] returns [this.__value]; [Err.unsafeCoerce()] throws
    [this.__value] when it is an [Error], otherwise
    [new Error('Result#unsafeCoerce was ran on a Err')].  The host's
    [instanceof Error] is the parameter [is_Error]; what is thrown is the
    payload itself ([inl]) or a fresh [Error] with the given message ([inr]). *)
Definition unsafeCoerce {E T} (is_Error : E -> bool) (this : Result E T)
  : Sync World (E + string) T :=
  match this with
  | Ok v => ret v
  | Err e => if is_Error e then throw (inl e) else throw (inr unsafeCoerce_message)
  end.

End Methods.
End Result.

(* ================================================================= *)
(** ** Promises of the host *)

Section Promises.
Context {World : Type}.

(** A promise as the event loop sees it: settled, or pending on code that
    runs atomically on the next turn and leaves the promise in a new state. *)
#[local] Unset Elimination Schemes.
Inductive Promise (E A : Type) : Type :=
| Fulfilled (a : A)
| Rejected (e : E)
| Pending (resume : World -> World * Promise E A).
#[local] Set Elimination Schemes.
Arguments Fulfilled {E A} a.
Arguments Rejected {E A} e.
Arguments Pending {E A} resume.

(** Runs the event loop until [p] settles. *)
Fixpoint drain {E A} (p : Promise E A) (w : World) : World * Completion E A :=
  match p with
  | Fulfilled a => (w, Normal a)
  | Rejected e => (w, Thrown e)
  | Pending k => let (w', p') := k w in drain p' w'
  end.

(** A reaction (or the body of an [async] function) returns a promise to
    follow, a plain value being [Fulfilled]; what it throws rejects. *)
Definition settle_call {E A} (c : Sync World E (Promise E A))
  : World -> World * Promise E A :=
  fun w =>
    match c w with
    | (w', Normal q) => (w', q)
    | (w', Thrown x) => (w', Rejected x)
    end.

(** [p.then(onFulfilled, onRejected)]: the reaction runs on a later turn,
    never at the call. *)
Fixpoint then2 {E A E' B} (p : Promise E A)
  (onFulfilled : A -> Sync World E' (Promise E' B))
  (onRejected : E -> Sync World E' (Promise E' B)) : Promise E' B :=
  match p with
  | Fulfilled a => Pending (settle_call (onFulfilled a))
  | Rejected e => Pending (settle_call (onRejected e))
  | Pending k =>
      Pending (fun w => let (w', p') := k w in (w', then2 p' onFulfilled onRejected))
  end.

(** [p.then(onFulfilled)]: a rejection passes through. *)
Definition then_ {E A B} (p : Promise E A)
  (onFulfilled : A -> Sync World E (Promise E B)) : Promise E B :=
  then2 p onFulfilled throw.

(** [p.finally(onFinally)], as ECMAScript defines it:
    [p.then(v => Promise.resolve(onFinally()).then(() => v),
            e => Promise.resolve(onFinally()).then(() => { throw e }))]. *)
Definition promise_finally {E A U} (p : Promise E A)
  (onFinally : Sync World E (Promise E U)) : Promise E A :=
  then2 p
    (fun v => bind onFinally (fun q => ret (then_ q (fun _ => ret (Fulfilled v)))))
    (fun e => bind onFinally (fun q => ret (then_ q (fun _ => throw e)))).

(** Bookkeeping of [Promise.all], no user code involved: the aggregate of the
    remaining elements with one more value in front. *)
Fixpoint pmap {E A B} (f : A -> B) (q : Promise E A) : Promise E B :=
  match q with
  | Fulfilled a => Fulfilled (f a)
  | Rejected e => Rejected e
  | Pending k => Pending (fun w => let (w', q') := k w in (w', pmap f q'))
  end.

(** An aggregate that has already rejected with [e]: the elements still
    pending keep running, their results are dropped. *)
Fixpoint finish {E A B} (q : Promise E A) (e : E) : Promise E B :=
  match q with
  | Fulfilled _ => Rejected e
  | Rejected _ => Rejected e
  | Pending k => Pending (fun w => let (w', q') := k w in (w', finish q' e))
  end.

(** One element [p] in front of the aggregate [q] of the elements after it.
    On each turn [p] is resumed first, then the others in their order; the
    first rejection seen wins. *)
Fixpoint join_cons {E A} (p : Promise E A) (q : Promise E (list A))
  : Promise E (list A) :=
  match p with
  | Fulfilled a => pmap (cons a) q
  | Rejected e => finish q e
  | Pending kp =>
      match q with
      | Fulfilled l =>
          Pending (fun w => let (w', p') := kp w in (w', join_cons p' (Fulfilled l)))
      | Rejected e' =>
          Pending (fun w => let (w', p') := kp w in (w', finish p' e'))
      | Pending kq =>
          Pending (fun w =>
                     let (w1, p') := kp w in
                     let (w2, q') := kq w1 in
                     (w2, join_cons p' q'))
      end
  end.

(** [Promise.all(ps)]: the values in input order once every element has
    fulfilled, or the first rejection. *)
Fixpoint Promise_all {E A} (ps : list (Promise E A)) : Promise E (list A) :=
  match ps with
  | [] => Fulfilled []
  | p :: rest => join_cons p (Promise_all rest)
  end.

(** [p] with the number of turns it took to settle. *)
Fixpoint timed {E A} (n : nat) (p : Promise E A) : Promise E (nat * A) :=
  match p with
  | Fulfilled a => Fulfilled (n, a)
  | Rejected e => Rejected e
  | Pending k => Pending (fun w => let (w', p') := k w in (w', timed (S n) p'))
  end.

(** A promise that takes [n] turns and then settles as [c]: a timer. *)
Fixpoint after {E A} (n : nat) (c : Completion E A) : Promise E A :=
  match n with
  | O => match c with Normal a => Fulfilled a | Thrown e => Rejected e end
  | S n' => Pending (fun w => (w, after n' c))
  end.

(** [p], settled or not, behind [n] more turns on which nothing runs. *)
Fixpoint idle {E A} (n : nat) (p : Promise E A) : Promise E A :=
  match n with
  | O => p
  | S n' => Pending (fun w => (w, idle n' p))
  end.

(** [p] as the host may schedule it: before its [k]-th resumption, and
    before its settlement is seen, [plan k] turns pass on which the host
    runs other jobs.  The code [p] runs, and its order, are those of [p]. *)
Fixpoint stutter {E A} (plan : nat -> nat) (k : nat) (p : Promise E A)
  : Promise E A :=
  match p with
  | Fulfilled a => idle (plan k) (Fulfilled a)
  | Rejected e => idle (plan k) (Rejected e)
  | Pending r =>
      idle (plan k)
        (Pending (fun w => let (w', p') := r w in (w', stutter plan (S k) p')))
  end.

(** The elements of [ps], the [i]-th scheduled by [timing i]. *)
Fixpoint stagger {E A} (timing : nat -> nat -> nat) (i : nat)
  (ps : list (Promise E A)) : list (Promise E A) :=
  match ps with
  | [] => []
  | p :: rest => stutter (timing i) 0 p :: stagger timing (S i) rest
  end.

End Promises.

Arguments Promise World E A : clear implicits.
Arguments Fulfilled {World E A} a.
Arguments Rejected {World E A} e.
Arguments Pending {World E A} resume.

(** What the host does with a value handed to [Promise.resolve], returned
    from a reaction or returned from an [async] function: a thenable is
    followed, any other value fulfils the promise.  Which values of a payload
    type are thenables is for the type to say. *)
Class Resolve (World E T : Type) : Type := resolve : T -> Promise World E T.

(** A payload type that declares nothing has no thenable among its values. *)
#[export] Instance plain_resolve {World E T} : Resolve World E T | 100 :=
  fun v => Fulfilled v.

(** Host timing under which no turn is lost. *)
Definition no_delay : nat -> nat -> nat := fun _ _ => 0.

(* ================================================================= *)
(** ** ResultAsync.ts *)

Section AsyncFunctions.
Context {World : Type}.

(** [ResultAsyncHelpers<E>]. *)
Record ResultAsyncHelpers (E : Type) : Type := {
  liftResult : forall T, Resolve World E T ->
    Result E T -> Sync World E (Promise World E T);
  fromPromise : forall T, Resolve World E T ->
    Promise World E (Result E T) -> Sync World E (Promise World E T);
  throwE : forall T, E -> Sync World E T
}.

(** [liftResult]: [Promise.resolve(result.extract())] on [Ok], otherwise
    [throw result.extract()]. *)
Definition helpers_liftResult {E T} {R : Resolve World E T} (result : Result E T)
  : Sync World E (Promise World E T) :=
  match result with
  | Ok v => ret (resolve v)
  | Err e => throw e
  end.

(** [fromPromise]: [promise.then(helpers.liftResult)]. *)
Definition helpers_fromPromise {E T} {R : Resolve World E T}
  (promise : Promise World E (Result E T)) : Sync World E (Promise World E T) :=
  ret (then_ promise helpers_liftResult).

(** [throwE]: [throw error]. *)
Definition helpers_throwE {E T} (error : E) : Sync World E T :=
  throw error.

(** The one [helpers] object every run passes to the producer. *)
Definition helpers {E} : ResultAsyncHelpers E :=
  {| liftResult := @helpers_liftResult E;
     fromPromise := @helpers_fromPromise E;
     throwE := @helpers_throwE E |}.

(** [class ResultAsyncImpl]: its only field is the producer. *)
Record ResultAsync (E T : Type) : Type := ResultAsyncImpl {
  runPromise : ResultAsyncHelpers E -> Sync World E (Promise World E T)
}.

(** The call of an [async] function: what its body throws before the first
    suspension rejects the promise it returns. *)
Definition async {E A} (body : Sync World E (Promise World E A))
  : Sync World E (Promise World E A) :=
  fun w => let (w', q) := settle_call body w in (w', Normal q).

(** [const x = await p; rest(x)] outside any [try]: the rest of the body is
    the reaction, a rejection of [p] is thrown at the [await]. *)
Definition await {E A B} (p : Promise World E A)
  (rest : A -> Sync World E (Promise World E B))
  : Sync World E (Promise World E B) :=
  ret (then_ p rest).

End AsyncFunctions.

Arguments ResultAsyncHelpers World E : clear implicits.
Arguments ResultAsync World E T : clear implicits.
Arguments ResultAsyncImpl {World E T} runPromise.
Arguments runPromise {World E T} r _ _.
Arguments liftResult {World E} r {T} {_} _ _.
Arguments fromPromise {World E} r {T} {_} _ _.
Arguments throwE {World E} r {T} _ _.

Module ResultAsync.
Section Methods.
Context {World : Type}.

(** [async run() { try { return Ok(await this.runPromise(helpers)) }
                  catch (e) { return Err(e) } }].
    The promise [run] returns has no rejection of its own to type, hence
    any [E']. *)
Definition run {E T E'} (this : ResultAsync World E T)
  : World -> World * Promise World E' (Result E T) :=
  fun w =>
    match runPromise this helpers w with
    | (w', Normal p) =>
        (w', then2 p (fun v => ret (Fulfilled (Ok v)))
                     (fun e => ret (Fulfilled (Err e))))
    | (w', Thrown e) => (w', Fulfilled (Err e))
    end.

(** [then = (onfulfilled, onrejected) => this.run().then(...)], as the host
    uses it to adopt [this] ([await this], [Promise.resolve(this)]): a job
    on the next turn calls [then], the promise then follows [run()]. *)
Definition adopt {E T E'} (this : ResultAsync World E T)
  : Promise World E' (Result E T) :=
  Pending (run this).

(** [alt]. *)
Definition alt {E T} (this other : ResultAsync World E T) : ResultAsync World E T :=
  ResultAsyncImpl (fun h =>
    async (
      await (adopt this) (fun thisValue =>
        match thisValue with
        | Ok v => ret (Fulfilled v)
        | Err _ =>
            await (adopt other) (fun otherValue => liftResult h otherValue)
        end))).

(** [swap]: [const result = await this.run();
             if (result.isOk()) helpers.throwE(result.extract());
             return helpers.liftResult(Ok(result.extract()))].
    [throwE] returns [never]: nothing runs after it. *)
Definition swap {E T} {R : Resolve World T E} (this : ResultAsync World E T)
  : ResultAsync World T E :=
  ResultAsyncImpl (fun h =>
    async (fun w =>
      let (w1, p) := run this w in
      await p (fun result =>
        match result with
        | Ok v => throwE h v
        | Err e => liftResult h (Ok e)
        end) w1)).

(** [finally]: [ResultAsync(({ fromPromise }) =>
                  fromPromise(this.run().finally(effect)))]. *)
Definition finally {E T U} (this : ResultAsync World E T)
  (effect : Sync World E (Promise World E U)) : ResultAsync World E T :=
  ResultAsyncImpl (fun h w =>
    let (w1, p) := run this w in
    fromPromise h (promise_finally p effect) w1).

(** The [for await (const e of eas)] loop of [sequence]: each element is
    adopted, and so started, only when the loop reaches it. *)
Fixpoint sequence_loop {E T} (h : ResultAsyncHelpers World E)
  (eas : list (ResultAsync World E T)) (res : list T)
  : Sync World E (Promise World E (list T)) :=
  match eas with
  | [] => liftResult h (Ok res)
  | ea :: rest =>
      await (adopt ea) (fun e =>
        match e with
        | Err x => liftResult h (Err x)
        | Ok v => sequence_loop h rest (res ++ [v])
        end)
  end.

(** [ResultAsync.sequence]. *)
Definition sequence {E T} (eas : list (ResultAsync World E T))
  : ResultAsync World E (list T) :=
  ResultAsyncImpl (fun h => async (sequence_loop h eas [])).

(** [map]: [ResultAsync((helpers) => this.runPromise(helpers).then(f))].
    What the reaction [f] returns is resolved by the host. *)
Definition map {E T T2} {R : Resolve World E T2} (f : T -> Sync World E T2)
  (this : ResultAsync World E T) : ResultAsync World E T2 :=
  ResultAsyncImpl (fun h =>
    bind (runPromise this h) (fun p =>
      ret (then_ p (fun v => bind (f v) (fun y => ret (resolve y)))))).

(** [mapErr]: [try { return await this.runPromise(helpers) }
               catch (e) { throw f(e) }].
    The cast [helpers as any] hands the receiver the one [helpers] object. *)
Definition mapErr {E T E2} (f : E -> Sync World E2 E2) (this : ResultAsync World E T)
  : ResultAsync World E2 T :=
  ResultAsyncImpl (fun _ =>
    async (fun w =>
      match runPromise this helpers w with
      | (w', Normal p) =>
          (w', Normal (then2 p (fun v => ret (Fulfilled v))
                               (fun e => bind (f e) (fun e2 => throw e2))))
      | (w', Thrown e) => bind (f e) (fun e2 => throw e2) w'
      end)).

(** [bimap]: [const result = await this.run();
              return helpers.liftResult(result.bimap(f, g))];
    [result.bimap] calls [g] on [Ok] and [f] on [Err]. *)
Definition bimap {E T E2 T2} {R : Resolve World E2 T2}
  (f : E -> Sync World E2 E2) (g : T -> Sync World E2 T2)
  (this : ResultAsync World E T) : ResultAsync World E2 T2 :=
  ResultAsyncImpl (fun h =>
    async (fun w =>
      let (w1, p) := run this w in
      await p (fun result =>
        match result with
        | Ok v => bind (g v) (fun y => liftResult h (Ok y))
        | Err e => bind (f e) (fun y => liftResult h (Err y))
        end) w1)).

(** A [PromiseLike] handed to [helpers.fromPromise], seen through the call of
    its [then]: a [ResultAsync] calls [run()] there and then. *)
Definition promiseLike {E T} (this : ResultAsync World E T)
  : Sync World E (Promise World E (Result E T)) :=
  fun w => let (w1, p) := run this w in (w1, Normal p).

(** [chain]: [const value = await this.runPromise(helpers);
              return helpers.fromPromise(f(value))].
    [f v] is the call [f(value)] together with the call of [then] on what it
    returned. *)
Definition chain {E T T2} {R : Resolve World E T2}
  (f : T -> Sync World E (Promise World E (Result E T2)))
  (this : ResultAsync World E T) : ResultAsync World E T2 :=
  ResultAsyncImpl (fun h =>
    async (
      bind (runPromise this h) (fun p =>
        await p (fun value => bind (f value) (fun q => fromPromise h q))))).

(** [chainErr]: [try { return await this.runPromise(helpers) }
                 catch (e) { return helpers.fromPromise(f(e)) }]. *)
Definition chainErr {E T E2} {R : Resolve World E2 T}
  (f : E -> Sync World E2 (Promise World E2 (Result E2 T)))
  (this : ResultAsync World E T) : ResultAsync World E2 T :=
  ResultAsyncImpl (fun h =>
    async (fun w =>
      match runPromise this helpers w with
      | (w', Normal p) =>
          (w', Normal (then2 p (fun v => ret (Fulfilled v))
                               (fun e => bind (f e) (fun q => fromPromise h q))))
      | (w', Thrown e) => bind (f e) (fun q => fromPromise h q) w'
      end)).

(** [ap]: [const otherValue = await resultF;
           if (otherValue.isOk()) {
             const thisValue = await this;
             if (thisValue.isOk()) return otherValue.extract()(thisValue.extract())
             else return helpers.liftResult(thisValue) }
           return helpers.liftResult(otherValue)].
    What the [async] producer returns is resolved by the host. *)
Definition ap {E T T2} {R : Resolve World E T2}
  (resultF : Promise World E (Result E (T -> T2)))
  (this : ResultAsync World E T) : ResultAsync World E T2 :=
  ResultAsyncImpl (fun h =>
    async (
      await resultF (fun otherValue =>
        match otherValue with
        | Ok fn =>
            await (adopt this) (fun thisValue =>
              match thisValue with
              | Ok v => ret (resolve (fn v))
              | Err e => liftResult h (Err e)
              end)
        | Err e => liftResult h (Err e)
        end))).

(** [ifErr]: [const result = await this.run(); result.ifErr(effect);
              return helpers.liftResult(result)]. *)
Definition ifErr {E T U} (effect : E -> Sync World E U) (this : ResultAsync World E T)
  : ResultAsync World E T :=
  ResultAsyncImpl (fun h =>
    async (fun w =>
      let (w1, p) := run this w in
      await p (fun result =>
        bind (Result.ifErr result effect) (fun _ => liftResult h result)) w1)).

(** [ifOk]: [const result = await this.run(); result.ifOk(effect);
             return helpers.liftResult(result)]. *)
Definition ifOk {E T U} (effect : T -> Sync World E U) (this : ResultAsync World E T)
  : ResultAsync World E T :=
  ResultAsyncImpl (fun h =>
    async (fun w =>
      let (w1, p) := run this w in
      await p (fun result =>
        bind (Result.ifOk result effect) (fun _ => liftResult h result)) w1)).

(** [void]: [this.map((_) => {})]. *)
Definition void {E T} (this : ResultAsync World E T) : ResultAsync World E unit :=
  map (fun _ => ret tt) this.

(** [then = (onfulfilled, onrejected) => this.run().then(onfulfilled, onrejected)]. *)
Definition then_method {E T E' B} (this : ResultAsync World E T)
  (onfulfilled : Result E T -> Sync World E' (Promise World E' B))
  (onrejected : E' -> Sync World E' (Promise World E' B))
  : World -> World * Promise World E' B :=
  fun w => let (w1, p) := run this w in (w1, then2 p onfulfilled onrejected).

(** [errOrDefault]: [this.run().then((x) => x.errOrDefault(defaultValue))].
    What the reaction returns is resolved by the host. *)
Definition errOrDefault {E T E'} {R : Resolve World E' E} (defaultValue : E)
  (this : ResultAsync World E T) : World -> World * Promise World E' E :=
  fun w =>
    let (w1, p) := run this w in
    (w1, then_ p (fun x => ret (resolve (Result.errOrDefault defaultValue x)))).

(** [orDefault]: [this.run().then((x) => x.orDefault(defaultValue))].
    What the reaction returns is resolved by the host. *)
Definition orDefault {E T E'} {R : Resolve World E' T} (defaultValue : T)
  (this : ResultAsync World E T) : World -> World * Promise World E' T :=
  fun w =>
    let (w1, p) := run this w in
    (w1, then_ p (fun x => ret (resolve (Result.orDefault defaultValue x)))).

(** [list.map((x) => x.run())]. *)
Fixpoint run_all {E T E'} (list_ : list (ResultAsync World E T)) (w : World)
  : World * list (Promise World E' (Result E T)) :=
  match list_ with
  | [] => (w, [])
  | x :: rest =>
      let (w1, p) := run x w in
      let (w2, ps) := run_all rest w1 in
      (w2, p :: ps)
  end.

(** [ResultAsync.errs]: [Promise.all(list.map((x) => x.run())).then(Result.errs)].
    [timing] is the host's scheduling of the started runs. *)
Definition errs {E T E'} (timing : nat -> nat -> nat)
  (list_ : list (ResultAsync World E T))
  : World -> World * Promise World E' (list E) :=
  fun w =>
    let (w1, ps) := run_all list_ w in
    (w1, then_ (Promise_all (stagger timing 0 ps))
               (fun results => ret (Fulfilled (Result.errs results)))).

(** [ResultAsync.oks]: [Promise.all(list.map((x) => x.run())).then(Result.oks)]. *)
Definition oks {E T E'} (timing : nat -> nat -> nat)
  (list_ : list (ResultAsync World E T))
  : World -> World * Promise World E' (list T) :=
  fun w =>
    let (w1, ps) := run_all list_ w in
    (w1, then_ (Promise_all (stagger timing 0 ps))
               (fun results => ret (Fulfilled (Result.oks results)))).

(** [Promise.all(eas)] on a list of [ResultAsync]: the jobs the host queues
    for the thenables call [then], hence [run()], on every element, in input
    order, before anything those runs leave pending is resumed; from there on
    the runs proceed under the host's scheduling [timing]. *)
Definition Promise_all_thenables {E T} (timing : nat -> nat -> nat)
  (eas : list (ResultAsync World E T)) : Promise World E (list (Result E T)) :=
  Pending (fun w =>
    let (w1, ps) := run_all eas w in
    (w1, Promise_all (stagger timing 0 ps))).

(** The field [liftResult] of the helpers, under a name the static
    [ResultAsync.liftResult] below does not hide. *)
#[local] Abbreviation helpers_field_liftResult := liftResult (only parsing).

(** [ResultAsync.liftResult]. *)
Definition liftResult {E T} {R : Resolve World E T} (result : Result E T)
  : ResultAsync World E T :=
  ResultAsyncImpl (fun h => liftResult h result).

(** [ResultAsync.fromPromise]: [ResultAsync(({ fromPromise: fP }) => fP(f()))]. *)
Definition fromPromise {E T} {R : Resolve World E T}
  (f : Sync World E (Promise World E (Result E T))) : ResultAsync World E T :=
  ResultAsyncImpl (fun h => bind f (fun p => fromPromise h p)).

(** [ResultAsync.all]:
    [ResultAsync.fromPromise(async () => Promise.all(eas).then(Result.sequence))]. *)
Definition all {E T} (timing : nat -> nat -> nat)
  (eas : list (ResultAsync World E T)) : ResultAsync World E (list T) :=
  fromPromise
    (async (ret (then_ (Promise_all_thenables timing eas)
                       (fun results => ret (Fulfilled (Result.sequence results)))))).

(** [extend]: [const result = await this.run();
               if (result.isOk()) {
                 const v = ResultAsync.liftResult(result);
                 return helpers.liftResult(Ok(f(v))) }
               return helpers.liftResult(result)]. *)
Definition extend {E T T2} {R1 : Resolve World E T} {R : Resolve World E T2}
  (f : ResultAsync World E T -> Sync World E T2)
  (this : ResultAsync World E T) : ResultAsync World E T2 :=
  ResultAsyncImpl (fun h =>
    async (fun w =>
      let (w1, p) := run this w in
      await p (fun result =>
        match result with
        | Ok v =>
            bind (f (liftResult (Ok v))) (fun y => helpers_field_liftResult h (Ok y))
        | Err e => helpers_field_liftResult h (Err e)
        end) w1)).

(** [await this.run()] at top level: the world and the settlement once the
    event loop is idle. *)
Definition settle {E T} (this : ResultAsync World E T) (w : World)
  : World * Completion E (Result E T) :=
  let (w1, p) := run this w in drain p w1.

End Methods.
End ResultAsync.

(* ================================================================= *)
(** ** Readings of the specification, and the inputs of the examples *)

Section Readings.
Context {World : Type}.

(** The three failure surfaces folded into one channel. *)
Definition collapse {E T} (c : Completion E T) : Result E T :=
  match c with
  | Normal v => Ok v
  | Thrown x => Err x
  end.

(** The producer invoked once with [helpers] and its deferred result awaited:
    it completes with a value, or it fails by a throw or a rejection. *)
Definition produce {E T} (this : ResultAsync World E T) (w : World)
  : World * Completion E T :=
  match runPromise this helpers w with
  | (w', Normal p) => drain p w'
  | (w', Thrown x) => (w', Thrown x)
  end.

(** A promise that fulfils, in every world it may be resumed in, with a value
    satisfying [P]; in particular it never rejects. *)
Inductive Yields {E A} (P : A -> Prop) : Promise World E A -> Prop :=
| Yields_now (a : A) : P a -> Yields P (Fulfilled a)
| Yields_later (k : World -> World * Promise World E A) :
    (forall w, Yields P (snd (k w))) -> Yields P (Pending k).

(** Every element of [eas] started, in input order: [run] is called on each
    whatever the others do. *)
Fixpoint start_all {E T} (eas : list (ResultAsync World E T)) (w : World)
  : World * list (Promise World E (Result E T)) :=
  match eas with
  | [] => (w, [])
  | ea :: rest =>
      let (w1, p) := ResultAsync.run ea w in
      let (w2, ps) := start_all rest w1 in
      (w2, p :: ps)
  end.

(** The elements of [eas] run one at a time, each to completion before the
    next is started, up to the first [Err]. *)
Fixpoint one_at_a_time {E T} (eas : list (ResultAsync World E T)) (res : list T)
  (w : World) : World * Result E (list T) :=
  match eas with
  | [] => (w, Ok res)
  | ea :: rest =>
      match ResultAsync.settle ea w with
      | (w', Normal (Ok v)) => one_at_a_time rest (res ++ [v]) w'
      | (w', Normal (Err e)) => (w', Err e)
      | (w', Thrown x) => (w', Err x)
      end
  end.

(** Every element of [eas] run in input order, each to completion before the
    next is started, and each resolving to [Ok]: the values, and the world
    left by the last one. *)
Inductive all_succeed {E T}
  : list (ResultAsync World E T) -> World -> list T -> World -> Prop :=
| all_succeed_nil (w : World) : all_succeed [] w [] w
| all_succeed_cons (ea : ResultAsync World E T) (rest : list (ResultAsync World E T))
    (w w1 w2 : World) (v : T) (vs : list T) :
    ResultAsync.settle ea w = (w1, Normal (Ok v)) ->
    all_succeed rest w1 vs w2 ->
    all_succeed (ea :: rest) w (v :: vs) w2.

(** The turn on which each element of [eas], all run together, settles, with
    the outcome it settles to; in input order.  Turn 1 starts them all. *)
Definition completion_times {E T} (timing : nat -> nat -> nat)
  (eas : list (ResultAsync World E T)) (w : World) : list (nat * Result E T) :=
  let (w1, ps) := start_all eas w in
  match drain (Promise_all (List.map (timed 1) (stagger timing 0 ps))) w1 with
  | (_, Normal l) => l
  | (_, Thrown _) => []
  end.

(** The failure that is observed first: least settling turn, the earlier
    position on a tie. *)
Fixpoint first_observed_failure {E T} (l : list (nat * Result E T))
  : option (nat * E) :=
  match l with
  | [] => None
  | (_, Ok _) :: rest => first_observed_failure rest
  | (t, Err e) :: rest =>
      match first_observed_failure rest with
      | Some (t', e') => if Nat.ltb t' t then Some (t', e') else Some (t, e)
      | None => Some (t, e)
      end
  end.

(** [all] as the specification words it: the first failure in completion
    order, or every success value in input order. *)
Definition all_by_completion_order {E T} (timing : nat -> nat -> nat)
  (eas : list (ResultAsync World E T)) (w : World) : Result E (list T) :=
  match first_observed_failure (completion_times timing eas w) with
  | Some (_, e) => Err e
  | None => Ok (Result.oks (List.map snd (completion_times timing eas w)))
  end.

(** [equals] as the specification words it: same variant and structurally
    equal payloads. *)
Definition equals_structurally (a b : Result JsValue JsValue) : bool :=
  match a, b with
  | Ok x, Ok y => js_struct_eq x y
  | Err x, Err y => js_struct_eq x y
  | _, _ => false
  end.

End Readings.

(** The world of the examples: the log of what ran, in order. *)
Definition Log : Type := list string.

Definition say {X} (s : string) : Sync Log X unit :=
  fun w => ((w ++ [s])%list, Normal tt).

(** [ResultAsync(() => new Promise((_, reject) => setTimeout(() => reject('A'))))],
    logging its invocation. *)
Definition slow_failure : ResultAsync Log string Z :=
  ResultAsyncImpl (fun _ => bind (say "slow") (fun _ => ret (after 3 (Thrown "A")))).

(** [ResultAsync(async ({ throwE }) => throwE('B'))], logging its invocation. *)
Definition fast_failure : ResultAsync Log string Z :=
  ResultAsyncImpl (fun h => async (bind (say "fast") (fun _ => throwE h "B"))).

(** [ResultAsync(async () => { fn(); return 2 })]. *)
Definition counted_success : ResultAsync Log string Z :=
  ResultAsyncImpl (fun _ => async (bind (say "fn") (fun _ => ret (Fulfilled 2%Z)))).

(** Two objects with the same content, [{ code: 1 }], created separately. *)
Definition object_one : JsValue := JsObject 1 [("code", JsNumber 1)].
Definition object_two : JsValue := JsObject 2 [("code", JsNumber 1)].

(** A payload that is a number or a promise of one.  Resolving a promise
    with it follows the promise: to the number it fulfils with, which is no
    thenable, or to its rejection. *)
Inductive Deferrable (World E : Type) : Type :=
| Plain (z : Z)
| Thenable (p : Promise World E Z).
Arguments Plain {World E} z.
Arguments Thenable {World E} p.

#[export] Instance Deferrable_resolve {World E}
  : Resolve World E (Deferrable World E) | 0 :=
  fun v =>
    match v with
    | Plain z => Fulfilled (Plain z)
    | Thenable p => pmap Plain p
    end.


(** [(x) => x.orDefault(6)], the function the test of [extend] passes: it
    returns the promise of [orDefault]. *)
Definition orDefault_six (x : ResultAsync Log string Z)
  : Sync Log string (Deferrable Log string) :=
  fun w => let (w1, p) := ResultAsync.orDefault 6%Z x w in (w1, Normal (Thenable p)).

(** [ResultAsync.liftResult(Ok(5))] at a type of payloads that has promises,
    and [(v) => v + 1] on numbers, silent and logging its call. *)
Definition plain_five : ResultAsync Log string (Deferrable Log string) :=
  ResultAsync.liftResult (Ok (Plain 5%Z)).
Definition bump (v : Deferrable Log string) : Deferrable Log string :=
  match v with
  | Plain z => Plain (z + 1)%Z
  | Thenable p => Thenable p
  end.
Definition bumping (v : Deferrable Log string)
  : Sync Log string (Deferrable Log string) :=
  bind (say "bump") (fun _ => ret (bump v)).

(** [(_) => Promise.reject('late')] and [(x) => Promise.resolve(x + 1)]. *)
Definition rejecting_later (_ : Z) : Sync Log string (Deferrable Log string) :=
  ret (Thenable (after 2 (Thrown "late"))).
Definition successor_later (x : Z) : Sync Log string (Deferrable Log string) :=
  ret (Thenable (after 2 (Normal (x + 1)%Z))).

(** [() => { throw 'boom' }], logging its call. *)
Definition throwing_effect : Sync Log string (Promise Log string unit) :=
  bind (say "effect") (fun _ => throw "boom").

(** [() => { a = 5 }], logging its call. *)
Definition quiet_effect : Sync Log string (Promise Log string unit) :=
  bind (say "effect") (fun _ => ret (Fulfilled tt)).

Section MoreReadings.
Context {World : Type}.

(** A call that returns a promise, awaited at top level. *)
Definition awaited {E A} (call : World -> World * Promise World E A) (w : World)
  : World * Completion E A :=
  let (w1, p) := call w in drain p w1.

(** A promise that fulfils with [a] whatever the world, and leaves the world
    as it finds it. *)
Inductive Quiet {E A} (a : A) : Promise World E A -> Prop :=
| Quiet_now : Quiet a (Fulfilled a)
| Quiet_later (k : World -> World * Promise World E A) :
    (forall w, fst (k w) = w) ->
    (forall w, Quiet a (snd (k w))) ->
    Quiet a (Pending k).

End MoreReadings.

(* ================================================================= *)
(** ** The synchronous layer *)

Section ResultFacts.
Context {World : Type}.

(** C5: the four cases of the synchronous [ap]: the function is applied when
    both sides are [Ok]; a lone [Err] on either side is the result; when both
    sides are [Err] the function side's [Err] is the result. *)
Theorem ap_cases {E T T2} (v : T) (fn : T -> T2) (e e2 : E) :
  Result.ap (Ok v : Result E T) (Ok fn) = Ok (fn v)
  /\ Result.ap (Ok v : Result E T) (Err e : Result E (T -> T2)) = Err e
  /\ Result.ap (Err e : Result E T) (Ok fn) = Err e
  /\ Result.ap (Err e : Result E T) (Err e2 : Result E (T -> T2)) = Err e2.
Proof. repeat split. Qed.

Lemma equals_unfold {E T} `{StrictEq E} `{StrictEq T} (a b : Result E T) :
  Result.equals a b =
  match a, b with
  | Ok x, Ok y => strict_eq x y
  | Err x, Err y => strict_eq y x
  | _, _ => false
  end.
Proof. destruct a, b; reflexivity. Qed.

Lemma js_strict_eq_sym (x y : JsValue) : js_strict_eq x y = js_strict_eq y x.
Proof.
  destruct x, y; simpl; try reflexivity.
  - destruct b, b0; reflexivity.
  - apply Z.eqb_sym.
  - apply String.eqb_sym.
  - apply Nat.eqb_sym.
Qed.

Lemma js_strict_struct_primitive (x y : JsValue) :
  js_primitive x = true -> js_strict_eq x y = js_struct_eq x y.
Proof. destruct x, y; simpl; intros Hp; try reflexivity; discriminate. Qed.

(** C7, as the code has it: [a.equals(b)] is true exactly when [a] and [b]
    have the same variant and their payloads are strictly equal ([===]);
    two outcomes of different variants are never equal; and on primitive
    payloads other than [NaN] strict and structural equality agree. *)
Theorem equals_same_variant_strict_eq (a b : Result JsValue JsValue) :
  (Result.equals a b = true <->
     (exists x y, a = Ok x /\ b = Ok y /\ js_strict_eq x y = true)
     \/ (exists x y, a = Err x /\ b = Err y /\ js_strict_eq x y = true))
  /\ (Result.isOk a <> Result.isOk b -> Result.equals a b = false)
  /\ (forall x y, js_primitive x = true ->
        Result.equals (Ok x : Result JsValue JsValue) (Ok y) = js_struct_eq x y
        /\ Result.equals (Err x : Result JsValue JsValue) (Err y) = js_struct_eq x y).
Proof.
  split; [| split].
  - rewrite equals_unfold. unfold strict_eq, JsValue_StrictEq. split.
    + destruct a as [x|x], b as [y|y]; intros Heq; try discriminate.
      * right. exists x, y. rewrite js_strict_eq_sym. auto.
      * left. exists x, y. auto.
    + intros [(x & y & -> & -> & Heq) | (x & y & -> & -> & Heq)].
      * exact Heq.
      * rewrite js_strict_eq_sym. exact Heq.
  - destruct a, b; simpl; intros Hv; try reflexivity; congruence.
  - intros x y Hp. rewrite !equals_unfold. unfold strict_eq, JsValue_StrictEq.
    split.
    + apply js_strict_struct_primitive, Hp.
    + rewrite js_strict_eq_sym. apply js_strict_struct_primitive, Hp.
Qed.

(** C7, the claim as worded fails: two separately created objects with the
    same content are structurally equal, and [equals] says [false]. *)
Lemma equals_structural_counterexample :
  equals_structurally (Ok object_one) (Ok object_two) = true
  /\ Result.equals (Ok object_one : Result JsValue JsValue) (Ok object_two) = false
  /\ equals_structurally (Ok JsNaN) (Ok JsNaN) = true
  /\ Result.equals (Ok JsNaN : Result JsValue JsValue) (Ok JsNaN) = false.
Proof. repeat split. Qed.

(** C9: [Ok(v).altLazy(f)] is [Ok(v)] and [f] is not called: the world is
    untouched whatever [f] does, and a counting [f] counts nothing;
    [Err(e).altLazy(f)] is the call [f()] itself, counted once. *)
Theorem altLazy_cases {X E T} (v : T) (e : E) (f : Sync World X (Result E T))
  (w : World) (n : nat) :
  Result.altLazy (Ok v) f w = (w, Normal (Ok v))
  /\ Result.altLazy (Err e) f = f
  /\ Result.altLazy (Ok v) (counted (fun _ : unit => f) tt) (n, w)
     = ((n, w), Normal (Ok v))
  /\ fst (fst (Result.altLazy (Err e) (counted (fun _ : unit => f) tt) (n, w)))
     = S n.
Proof.
  repeat split. simpl. unfold counted. simpl. destruct (f w). reflexivity.
Qed.

(** C10: [ifErr] on [Ok] and [ifOk] on [Err] return the receiver and do not
    call the effect; [ifErr] on [Err] and [ifOk] on [Ok] call the effect once
    on the payload and, when it returns, return the receiver. *)
Theorem ifErr_ifOk_cases {X E T U} (v : T) (e : E)
  (onErr : E -> Sync World X U) (onOk : T -> Sync World X U) (w : World) (n : nat) :
  Result.ifErr (Ok v) onErr w = (w, Normal (Ok v))
  /\ Result.ifOk (Err e) onOk w = (w, Normal (Err e))
  /\ Result.ifErr (Err e : Result E T) onErr w
     = (let (w', c) := onErr e w in
        (w', match c with Normal _ => Normal (Err e) | Thrown x => Thrown x end))
  /\ Result.ifOk (Ok v : Result E T) onOk w
     = (let (w', c) := onOk v w in
        (w', match c with Normal _ => Normal (Ok v) | Thrown x => Thrown x end))
  /\ fst (fst (Result.ifErr (Ok v) (counted onErr) (n, w))) = n
  /\ fst (fst (Result.ifOk (Err e) (counted onOk) (n, w))) = n
  /\ fst (fst (Result.ifErr (Err e : Result E T) (counted onErr) (n, w))) = S n
  /\ fst (fst (Result.ifOk (Ok v : Result E T) (counted onOk) (n, w))) = S n.
Proof.
  repeat split.
  - simpl. unfold bind. destruct (onErr e w) as [w' [u|x]]; reflexivity.
  - simpl. unfold bind. destruct (onOk v w) as [w' [u|x]]; reflexivity.
  - simpl. unfold bind, counted. simpl. destruct (onErr e w) as [w' [u|x]]; reflexivity.
  - simpl. unfold bind, counted. simpl. destruct (onOk v w) as [w' [u|x]]; reflexivity.
Qed.

End ResultFacts.

(* ================================================================= *)
(** ** Promises: draining and never rejecting *)

Section PromiseFacts.
Context {World : Type}.

Lemma Promise_induction {E A} (P : Promise World E A -> Prop) :
  (forall a, P (Fulfilled a)) ->
  (forall e, P (Rejected e)) ->
  (forall k, (forall w, P (snd (k w))) -> P (Pending k)) ->
  forall p, P p.
Proof.
  intros HF HR HP. fix IH 1. intros [a|e|k].
  - apply HF.
  - apply HR.
  - apply HP. intro w. apply IH.
Qed.

(** Draining [p.then(onFulfilled, onRejected)]: [p] is drained, then the
    reaction for its settlement runs, then the promise it returned is
    drained. *)
Lemma drain_then2 {E A E' B} (p : Promise World E A)
  (onF : A -> Sync World E' (Promise World E' B))
  (onR : E -> Sync World E' (Promise World E' B)) (w : World) :
  drain (then2 p onF onR) w =
  (let (w1, c) := drain p w in
   let (w2, q) :=
     settle_call (match c with Normal a => onF a | Thrown e => onR e end) w1 in
   drain q w2).
Proof.
  revert w. induction p as [a|e|k IH] using Promise_induction; intro w.
  - reflexivity.
  - reflexivity.
  - simpl. specialize (IH w). destruct (k w) as [w' p']. apply IH.
Qed.

Lemma drain_then_ {E A B} (p : Promise World E A)
  (onF : A -> Sync World E (Promise World E B)) (w : World) :
  drain (then_ p onF) w =
  (let (w1, c) := drain p w in
   match c with
   | Normal a => let (w2, q) := settle_call (onF a) w1 in drain q w2
   | Thrown e => (w1, Thrown e)
   end).
Proof.
  unfold then_. rewrite drain_then2.
  destruct (drain p w) as [w1 [a|e]]; reflexivity.
Qed.

Lemma Yields_mono {E A} (P Q : A -> Prop) (p : Promise World E A) :
  (forall a, P a -> Q a) -> Yields P p -> Yields Q p.
Proof.
  intros HPQ H. induction H as [a Ha | k _ IH].
  - constructor. auto.
  - constructor. exact IH.
Qed.

Lemma Yields_drain {E A} (P : A -> Prop) (p : Promise World E A) :
  Yields P p -> forall w, exists w' a, drain p w = (w', Normal a) /\ P a.
Proof.
  induction 1 as [a Ha | k _ IH]; intro w.
  - exists w, a. split; [reflexivity | exact Ha].
  - simpl. specialize (IH w). destruct (k w) as [w1 p1]. apply IH.
Qed.

Lemma Yields_pmap {E A B} (f : A -> B) (Q : A -> Prop) (q : Promise World E A) :
  Yields Q q -> Yields (fun b => exists a, b = f a /\ Q a) (pmap f q).
Proof.
  induction 1 as [a Ha | k _ IH].
  - constructor. eauto.
  - simpl. constructor. intro w. specialize (IH w).
    destruct (k w) as [w1 q1]. exact IH.
Qed.

Lemma Yields_join_cons {E A} (P : A -> Prop) (Q : list A -> Prop)
  (p : Promise World E A) :
  Yields P p ->
  forall q, Yields Q q ->
  Yields (fun l => exists a l', l = a :: l' /\ P a /\ Q l') (join_cons p q).
Proof.
  induction 1 as [a Ha | kp _ IH]; intros q Hq.
  - simpl. eapply Yields_mono; [| apply Yields_pmap, Hq].
    intros l (l' & -> & Hl'). eauto.
  - destruct Hq as [l Hl | kq Hkq]; simpl; constructor; intro w.
    + specialize (IH w (Fulfilled l)). destruct (kp w) as [w1 p1].
      apply IH. constructor. exact Hl.
    + specialize (IH w). destruct (kp w) as [w1 p1].
      specialize (Hkq w1). destruct (kq w1) as [w2 q2].
      apply IH. exact Hkq.
Qed.

Lemma Yields_Promise_all {E A} (ps : list (Promise World E A)) :
  Forall (Yields (fun _ => True)) ps ->
  Yields (fun l => List.length l = List.length ps) (Promise_all ps).
Proof.
  induction 1 as [| p ps Hp _ IH].
  - constructor. reflexivity.
  - simpl. eapply Yields_mono; [| apply (Yields_join_cons _ _ _ Hp _ IH)].
    intros l (a & l' & -> & _ & Hlen). simpl. congruence.
Qed.

End PromiseFacts.

(* ================================================================= *)
(** ** The asynchronous layer *)

Section ResultAsyncFacts.
Context {World : Type}.

(** What [run()] resolves to, whatever rejection type its caller expects. *)
Lemma drain_run {E T E'} (this : ResultAsync World E T) (w : World) :
  (let (w1, p) := ResultAsync.run (E' := E') this w in drain p w1)
  = (let (w', c) := produce this w in (w', Normal (collapse c))).
Proof.
  unfold ResultAsync.run, produce.
  destruct (runPromise this helpers w) as [w1 [p|x]]; [| reflexivity].
  rewrite drain_then2. destruct (drain p w1) as [w2 [v|e]]; reflexivity.
Qed.

Lemma settle_collapse {E T} (this : ResultAsync World E T) (w : World) :
  ResultAsync.settle this w
  = (let (w', c) := produce this w in (w', Normal (collapse c))).
Proof. apply drain_run. Qed.

Lemma drain_adopt {E T E'} (this : ResultAsync World E T) (w : World) :
  drain (ResultAsync.adopt (E' := E') this) w
  = (let (w', c) := produce this w in (w', Normal (collapse c))).
Proof. apply drain_run. Qed.

(** The promise [run()] returns never rejects, however the event loop
    interleaves it with others. *)
Lemma run_Yields {E T E'} (this : ResultAsync World E T) (w : World) :
  Yields (fun _ => True) (snd (ResultAsync.run (E' := E') this w)).
Proof.
  unfold ResultAsync.run.
  destruct (runPromise this helpers w) as [w1 [p|x]]; simpl.
  - clear. induction p as [a|e|k IH] using Promise_induction.
    + simpl. constructor. intro w. simpl. constructor. exact I.
    + simpl. constructor. intro w. simpl. constructor. exact I.
    + simpl. constructor. intro w. specialize (IH w).
      destruct (k w) as [w' p']. exact IH.
  - constructor. exact I.
Qed.

(** The producer of an [async] arrow: its body up to the first suspension,
    then the promise the body left. *)
Lemma produce_async {E T}
  (body : ResultAsyncHelpers World E -> Sync World E (Promise World E T)) (w : World) :
  produce (ResultAsyncImpl (fun h => async (body h))) w
  = (let (w', q) := settle_call (body helpers) w in drain q w').
Proof.
  unfold produce, async. cbn [runPromise].
  destruct (settle_call (body helpers) w) as [w' q]. reflexivity.
Qed.

Lemma drain_await {E A B} (p : Promise World E A)
  (rest : A -> Sync World E (Promise World E B)) (w : World) :
  (let (w', q) := settle_call (await p rest) w in drain q w')
  = (let (w1, c) := drain p w in
     match c with
     | Normal a => let (w2, q) := settle_call (rest a) w1 in drain q w2
     | Thrown e => (w1, Thrown e)
     end).
Proof. unfold await, settle_call at 1, ret. apply drain_then_. Qed.

(** C1: [run()] always resolves to an outcome and never rejects, however it
    is interleaved; a producer whose deferred result completes with [v]
    gives [Ok v]; a producer that fails with [x], by a throw or by the
    rejection of the promise it returned, gives [Err x]; in particular a
    producer that calls [throwE(x)] gives [Err x], one that returns
    [liftResult(r)] gives [r] (an [Err] short-circuits), one that returns
    [fromPromise(promise)] gives the outcome [promise] resolves to, or
    [Err x] when it rejects with [x], [() => Promise.reject(x)] gives
    [Err x], and so does an [await] of a promise that rejects with [x]. *)
Theorem run_folds_every_failure {E T} (this : ResultAsync World E T) (w : World) :
  (exists w' r, ResultAsync.settle this w = (w', Normal r))
  /\ Yields (fun _ => True) (snd (ResultAsync.run (E' := E) this w))
  /\ (forall w' v, produce this w = (w', Normal v) ->
        ResultAsync.settle this w = (w', Normal (Ok v)))
  /\ (forall w' x, produce this w = (w', Thrown x) ->
        ResultAsync.settle this w = (w', Normal (Err x)))
  /\ (forall x : E,
        ResultAsync.settle
          (ResultAsyncImpl (fun h => async (throwE h x)) : ResultAsync World E T) w
        = (w, Normal (Err x)))
  /\ (forall r : Result E T,
        ResultAsync.settle (ResultAsyncImpl (fun h => liftResult h r)) w
        = (w, Normal r))
  /\ (forall (promise : Promise World E (Result E T)) w' c,
        drain promise w = (w', c) ->
        ResultAsync.settle (ResultAsyncImpl (fun h => fromPromise h promise)) w
        = (w', Normal (match c with Normal r => r | Thrown x => Err x end)))
  /\ (forall x : E,
        ResultAsync.settle
          (ResultAsyncImpl (fun _ => ret (Rejected x)) : ResultAsync World E T) w
        = (w, Normal (Err x)))
  /\ (forall A (p : Promise World E A) (rest : A -> Sync World E (Promise World E T))
             w' x,
        drain p w = (w', Thrown x) ->
        ResultAsync.settle (ResultAsyncImpl (fun _ => async (await p rest))) w
        = (w', Normal (Err x))).
Proof.
  split; [| split; [| split; [| split; [| split; [| split; [| split; [| split]]]]]]].
  - rewrite settle_collapse. destruct (produce this w) as [w' c]. eauto.
  - apply run_Yields.
  - intros w' v Hp. rewrite settle_collapse, Hp. reflexivity.
  - intros w' x Hp. rewrite settle_collapse, Hp. reflexivity.
  - intro x. reflexivity.
  - intros [e|v]; reflexivity.
  - intros promise w' c Hd. rewrite settle_collapse. unfold produce.
    cbn [runPromise fromPromise helpers]. unfold helpers_fromPromise, ret.
    rewrite drain_then_, Hd. destruct c as [[e|v]|x]; reflexivity.
  - intro x. reflexivity.
  - intros A p rest w' x Hd. rewrite settle_collapse.
    rewrite (produce_async (fun _ => await p rest)), drain_await, Hd. reflexivity.
Qed.



(** [alt]: the receiver is run to completion first; the argument is run
    after it, and only when the receiver failed. *)
Lemma settle_alt {E T} (this other : ResultAsync World E T) (w : World) :
  ResultAsync.settle (ResultAsync.alt this other) w
  = (let (w1, c) := produce this w in
     match c with
     | Normal v => (w1, Normal (Ok v))
     | Thrown _ => ResultAsync.settle other w1
     end).
Proof.
  rewrite settle_collapse. unfold ResultAsync.alt.
  rewrite produce_async, drain_await, drain_adopt.
  destruct (produce this w) as [w1 [v|e]]; cbn [collapse]; [reflexivity |].
  rewrite drain_await, drain_adopt, settle_collapse.
  destruct (produce other w1) as [w2 [v|e2]]; reflexivity.
Qed.

(** C6: on [Result], an [Ok] receiver wins whatever the argument, and of two
    [Err] the argument's is the result; on [ResultAsync], when the receiver's
    run resolves to [Ok] the result is that [Ok] and the argument is not run
    (the world is the one the receiver left), otherwise the result, and the
    effects, are those of the argument run after the receiver. *)
Theorem alt_both_layers {E T} (v : T) (e e2 : E) (r : Result E T)
  (this other : ResultAsync World E T) (w : World) :
  Result.alt (Ok v) r = Ok v
  /\ Result.alt (Err e : Result E T) (Err e2) = Err e2
  /\ (forall w1 v1, ResultAsync.settle this w = (w1, Normal (Ok v1)) ->
        ResultAsync.settle (ResultAsync.alt this other) w = (w1, Normal (Ok v1)))
  /\ (forall w1 e1, ResultAsync.settle this w = (w1, Normal (Err e1)) ->
        ResultAsync.settle (ResultAsync.alt this other) w
        = ResultAsync.settle other w1).
Proof.
  repeat split.
  - intros w1 v1 Hs. rewrite settle_alt. rewrite settle_collapse in Hs.
    destruct (produce this w) as [w' [v'|e']]; simpl in Hs; congruence.
  - intros w1 e1 Hs. rewrite settle_alt. rewrite settle_collapse in Hs.
    destruct (produce this w) as [w' [v'|e']]; simpl in Hs; congruence.
Qed.

(** [finally]: the receiver is run to completion, then the effect is called;
    the receiver's outcome is the result when the effect returns (and what it
    returned, if a promise, fulfils), otherwise the effect's failure is. *)
Lemma settle_finally {E T U} (this : ResultAsync World E T)
  (effect : Sync World E (Promise World E U)) (w : World) :
  ResultAsync.settle (ResultAsync.finally this effect) w
  = (let (w1, c) := produce this w in
     match effect w1 with
     | (w2, Normal q) =>
         let (w3, d) := drain q w2 in
         (w3, Normal (match d with Normal _ => collapse c | Thrown x => Err x end))
     | (w2, Thrown x) => (w2, Normal (Err x))
     end).
Proof.
  rewrite settle_collapse. unfold produce at 1. simpl.
  pose proof (drain_run (E' := E) this w) as Hrun.
  destruct (ResultAsync.run this w) as [w0 p]. simpl.
  rewrite drain_then_. unfold promise_finally. rewrite drain_then2, Hrun.
  destruct (produce this w) as [w1 c]. unfold settle_call, bind, ret.
  destruct c as [v|e]; simpl.
  - destruct (effect w1) as [w2 [q|x]]; [| reflexivity].
    rewrite drain_then_. destruct (drain q w2) as [w3 [u|x]]; reflexivity.
  - destruct (effect w1) as [w2 [q|x]]; [| reflexivity].
    rewrite drain_then_. destruct (drain q w2) as [w3 [u|x]]; reflexivity.
Qed.

(** C4, as the code has it: [finally(effect)] calls the effect once the
    receiver's run has completed, on [Ok] and on [Err] alike; when the effect
    returns (and the promise it returned, if any, fulfils) the result is the
    receiver's outcome; when the effect throws [x] (or the promise it returned
    rejects with [x]) the result is [Err x]. *)
Theorem finally_runs_effect_then_keeps_or_fails {E T U}
  (this : ResultAsync World E T) (effect : Sync World E (Promise World E U))
  (w : World) :
  forall w1 r, ResultAsync.settle this w = (w1, Normal r) ->
    (forall w2 q w3 u, effect w1 = (w2, Normal q) -> drain q w2 = (w3, Normal u) ->
       ResultAsync.settle (ResultAsync.finally this effect) w = (w3, Normal r))
    /\ (forall w2 x, effect w1 = (w2, Thrown x) ->
       ResultAsync.settle (ResultAsync.finally this effect) w = (w2, Normal (Err x)))
    /\ (forall w2 q w3 x, effect w1 = (w2, Normal q) -> drain q w2 = (w3, Thrown x) ->
       ResultAsync.settle (ResultAsync.finally this effect) w = (w3, Normal (Err x))).
Proof.
  intros w1 r Hs. rewrite settle_finally. rewrite settle_collapse in Hs.
  destruct (produce this w) as [w' c]. injection Hs as -> <-.
  repeat split.
  - intros w2 q w3 u He Hd. rewrite He, Hd. reflexivity.
  - intros w2 x He. rewrite He. reflexivity.
  - intros w2 q w3 x He Hd. rewrite He, Hd. reflexivity.
Qed.

End ResultAsyncFacts.

(** C4, the claim as worded fails: a throwing effect after [Ok 5] turns the
    result into [Err "boom"]. *)
Lemma finally_effect_failure_counterexample :
  ResultAsync.settle (ResultAsync.liftResult (Ok 5%Z : Result string Z)) ([] : Log)
    = ([], Normal (Ok 5%Z))
  /\ ResultAsync.settle
       (ResultAsync.finally (ResultAsync.liftResult (Ok 5%Z)) throwing_effect) []
     = (["effect"], Normal (Err "boom"))
  /\ snd (ResultAsync.settle
            (ResultAsync.finally (ResultAsync.liftResult (Ok 5%Z)) throwing_effect) [])
     <> snd (ResultAsync.settle
               (ResultAsync.liftResult (Ok 5%Z : Result string Z)) ([] : Log)).
Proof. repeat split. vm_compute. discriminate. Qed.



(* ================================================================= *)
(** ** The collection operators *)

Section CollectionFacts.
Context {World : Type}.

Lemma drain_sequence_loop {E T} (eas : list (ResultAsync World E T)) :
  forall (res : list T) (w : World),
  (let (w1, q) := settle_call (ResultAsync.sequence_loop helpers eas res) w in
   drain q w1)
  = (let (w', r) := one_at_a_time eas res w in
     (w', match r with Ok l => Normal l | Err e => Thrown e end)).
Proof.
  induction eas as [| ea rest IH]; intros res w.
  - reflexivity.
  - cbn [ResultAsync.sequence_loop one_at_a_time].
    rewrite drain_await, drain_adopt, settle_collapse.
    destruct (produce ea w) as [w1 [v|e]]; cbn [collapse].
    + apply IH.
    + reflexivity.
Qed.

Lemma settle_sequence {E T} (eas : list (ResultAsync World E T)) (w : World) :
  ResultAsync.settle (ResultAsync.sequence eas) w
  = (let (w', r) := one_at_a_time eas [] w in (w', Normal r)).
Proof.
  rewrite settle_collapse. unfold ResultAsync.sequence.
  rewrite produce_async, drain_sequence_loop.
  destruct (one_at_a_time eas [] w) as [w' [e|l]]; reflexivity.
Qed.

Lemma one_at_a_time_prefix {E T} (pre : list (ResultAsync World E T))
  (w w1 : World) (vs : list T) :
  all_succeed pre w vs w1 ->
  forall (post : list (ResultAsync World E T)) (res : list T),
  one_at_a_time (pre ++ post) res w = one_at_a_time post (res ++ vs) w1.
Proof.
  induction 1 as [w | ea rest w w1 w2 v vs Hea _ IH]; intros post res.
  - simpl. rewrite app_nil_r. reflexivity.
  - simpl. rewrite Hea, IH, <- app_assoc. reflexivity.
Qed.

(** C3: [sequence(list)] runs the elements in input order, one at a time.
    When the elements before [ea] all resolve to [Ok] and [ea] resolves to
    [Err e], the result is [Err e] and the world is the one [ea]'s run left,
    whatever the later elements are: their producers are not invoked.  When
    every element resolves to [Ok], the result is [Ok] of the values in input
    order.  [sequence([])] resolves to [Ok []]. *)
Theorem sequence_stops_at_first_failure {E T}
  (pre post : list (ResultAsync World E T)) (ea : ResultAsync World E T)
  (w : World) :
  (forall vs w1 w2 e,
      all_succeed pre w vs w1 ->
      ResultAsync.settle ea w1 = (w2, Normal (Err e)) ->
      ResultAsync.settle (ResultAsync.sequence (pre ++ ea :: post)) w
      = (w2, Normal (Err e)))
  /\ (forall vs w1,
      all_succeed pre w vs w1 ->
      ResultAsync.settle (ResultAsync.sequence pre) w = (w1, Normal (Ok vs)))
  /\ ResultAsync.settle (ResultAsync.sequence ([] : list (ResultAsync World E T))) w
     = (w, Normal (Ok [])).
Proof.
  repeat split.
  - intros vs w1 w2 e Hpre Hea. rewrite settle_sequence.
    rewrite (one_at_a_time_prefix _ _ _ _ Hpre). simpl. rewrite Hea. reflexivity.
  - intros vs w1 Hpre. rewrite settle_sequence.
    rewrite <- (app_nil_r pre), (one_at_a_time_prefix _ _ _ _ Hpre). reflexivity.
Qed.


Lemma run_all_start_all {E T} (eas : list (ResultAsync World E T)) (w : World) :
  ResultAsync.run_all (E' := E) eas w = start_all eas w.
Proof.
  revert w. induction eas as [| ea rest IH]; intro w; simpl; [reflexivity |].
  destruct (ResultAsync.run ea w) as [w1 p]. rewrite IH. reflexivity.
Qed.

Lemma Yields_idle {E A} (P : A -> Prop) (n : nat) (p : Promise World E A) :
  Yields P p -> Yields P (idle n p).
Proof.
  intro H. induction n as [| n IH]; simpl; [exact H |].
  constructor. intro w. exact IH.
Qed.

(** Whatever the host's timing, a promise fulfils with the values it would
    fulfil with. *)
Lemma Yields_stutter {E A} (P : A -> Prop) (plan : nat -> nat)
  (p : Promise World E A) :
  Yields P p -> forall k, Yields P (stutter plan k p).
Proof.
  induction 1 as [a Ha | r _ IH]; intro k; simpl; apply Yields_idle.
  - constructor. exact Ha.
  - constructor. intro w. specialize (IH w (S k)).
    destruct (r w) as [w' p']. exact IH.
Qed.

Lemma Yields_stagger {E A} (Ps : list (A -> Prop)) (timing : nat -> nat -> nat)
  (ps : list (Promise World E A)) :
  Forall2 (fun P p => Yields P p) Ps ps ->
  forall i, Forall2 (fun P p => Yields P p) Ps (stagger timing i ps).
Proof.
  induction 1 as [| P p Ps ps HP _ IH]; intro i; simpl; constructor.
  - apply Yields_stutter, HP.
  - apply IH.
Qed.

(** [Promise.all] puts at each position a value of the element at that
    position. *)
Lemma Yields_Promise_all_each {E A} (Ps : list (A -> Prop))
  (ps : list (Promise World E A)) :
  Forall2 (fun P p => Yields P p) Ps ps ->
  Yields (fun l => Forall2 (fun P a => P a) Ps l) (Promise_all ps).
Proof.
  induction 1 as [| P p Ps ps HP _ IH]; simpl.
  - constructor. constructor.
  - eapply Yields_mono; [| apply (Yields_join_cons _ _ _ HP _ IH)].
    intros l (a & l' & -> & Ha & Hl'). constructor; assumption.
Qed.

Lemma start_all_Yields {E T} (eas : list (ResultAsync World E T)) (w : World) :
  List.length (snd (start_all eas w)) = List.length eas
  /\ Forall (Yields (fun _ => True)) (snd (start_all eas w)).
Proof.
  revert w. induction eas as [| ea rest IH]; intro w.
  - split; [reflexivity | constructor].
  - simpl. pose proof (run_Yields (E' := E) ea w) as Hp.
    destruct (ResultAsync.run ea w) as [w1 p].
    destruct (IH w1) as [Hlen Hall].
    destruct (start_all rest w1) as [w2 ps]. simpl in *.
    split; [congruence | constructor; assumption].
Qed.

Lemma Forall_Yields_Forall2 {E A} (ps : list (Promise World E A)) :
  Forall (Yields (fun _ => True)) ps ->
  Forall2 (fun P p => Yields P p) (List.map (fun _ _ => True) ps) ps.
Proof. induction 1; simpl; constructor; assumption. Qed.

(** Once started, the runs settle together under any timing: none rejects,
    and position by position the outcomes are those of the runs. *)
Lemma drain_started {E T} (timing : nat -> nat -> nat)
  (ps : list (Promise World E (Result E T))) (w1 : World) :
  Forall (Yields (fun _ => True)) ps ->
  exists w2 outs,
    drain (Promise_all (stagger timing 0 ps)) w1 = (w2, Normal outs)
    /\ List.length outs = List.length ps
    /\ (forall Ps, Forall2 (fun P p => Yields P p) Ps ps ->
                   Forall2 (fun P r => P r) Ps outs).
Proof.
  intro HY.
  pose proof (Yields_drain _ _
                (Yields_Promise_all_each _ _
                   (Yields_stagger _ timing _ (Forall_Yields_Forall2 ps HY) 0)) w1)
    as (w2 & outs & Hd & Hout).
  exists w2, outs. split; [exact Hd |]. split.
  - apply Forall2_length in Hout. rewrite length_map in Hout. congruence.
  - intros Ps HPs.
    pose proof (Yields_drain _ _
                  (Yields_Promise_all_each _ _ (Yields_stagger _ timing _ HPs 0)) w1)
      as (w2' & outs' & Hd' & Hout').
    rewrite Hd in Hd'. injection Hd' as _ <-. exact Hout'.
Qed.

(** [all]: whatever [Promise.all] settles to is handed to [Result.sequence]. *)
Lemma settle_all {E T} (timing : nat -> nat -> nat)
  (eas : list (ResultAsync World E T)) (w : World) :
  ResultAsync.settle (ResultAsync.all timing eas) w
  = (let (w1, ps) := start_all eas w in
     let (w2, c) := drain (Promise_all (stagger timing 0 ps)) w1 in
     (w2, Normal (match c with
                  | Normal results => Result.sequence results
                  | Thrown x => Err x
                  end))).
Proof.
  rewrite settle_collapse. unfold produce, ResultAsync.all, ResultAsync.fromPromise.
  cbn [runPromise]. unfold bind, async, settle_call, ret.
  cbn [fromPromise helpers]. unfold helpers_fromPromise, ret.
  rewrite !drain_then_. unfold ResultAsync.Promise_all_thenables. cbn [drain].
  rewrite run_all_start_all. destruct (start_all eas w) as [w1 ps].
  destruct (drain (Promise_all (stagger timing 0 ps)) w1) as [w2 [results|x]];
    [| reflexivity].
  destruct (Result.sequence results); reflexivity.
Qed.

Lemma sequence_loop_first_Err {E T} (vs : list T) (e : E) (post : list (Result E T)) :
  forall res, Result.sequence_loop (List.map Ok vs ++ Err e :: post) res = Err e.
Proof. induction vs as [| v vs IH]; intro res; simpl; [reflexivity | apply IH]. Qed.

Lemma sequence_loop_all_Ok {E T} (vs : list T) :
  forall res, Result.sequence_loop (List.map (Ok (E := E)) vs) res = Ok (res ++ vs)%list.
Proof.
  induction vs as [| v vs IH]; intro res; simpl.
  - rewrite app_nil_r. reflexivity.
  - rewrite IH, <- app_assoc. reflexivity.
Qed.

(** C2, as the code has it: [all(list)] starts every element, in input
    order and whatever the others do, waits until all of them have settled,
    and hands their outcomes to [Result.sequence] in input order, whatever
    the order they settled in ([timing] is any scheduling by the host): at
    each position the outcome is one of the element at that position, so that
    for elements whose outcomes are [rs] the result is [Result.sequence rs],
    the [Err] of the first failing element by input position, or [Ok] of the
    values in input order when every element succeeds; [all([])] resolves to
    [Ok []]. *)
Theorem all_runs_every_element_first_failure_by_position {E T}
  (timing : nat -> nat -> nat) (eas : list (ResultAsync World E T)) (w : World) :
  (exists w1 ps w2 outs,
      start_all eas w = (w1, ps)
      /\ List.length ps = List.length eas
      /\ drain (Promise_all (stagger timing 0 ps)) w1 = (w2, Normal outs)
      /\ List.length outs = List.length eas
      /\ (forall Ps, Forall2 (fun P p => Yields P p) Ps ps ->
                     Forall2 (fun P r => P r) Ps outs)
      /\ ResultAsync.settle (ResultAsync.all timing eas) w
         = (w2, Normal (Result.sequence outs)))
  /\ (forall rs : list (Result E T),
        Forall2 (fun r ea => forall w0,
                   Yields (eq r) (snd (ResultAsync.run (E' := E) ea w0))) rs eas ->
        snd (ResultAsync.settle (ResultAsync.all timing eas) w)
        = Normal (Result.sequence rs))
  /\ (forall (vs : list T) (e : E) (post : list (Result E T)),
        Result.sequence (List.map Ok vs ++ Err e :: post) = Err e)
  /\ (forall vs : list T, Result.sequence (List.map (Ok (E := E)) vs) = Ok vs)
  /\ ResultAsync.settle (ResultAsync.all timing ([] : list (ResultAsync World E T))) w
     = (w, Normal (Ok [])).
Proof.
  assert (Hmain : exists w1 ps w2 outs,
      start_all eas w = (w1, ps)
      /\ List.length ps = List.length eas
      /\ drain (Promise_all (stagger timing 0 ps)) w1 = (w2, Normal outs)
      /\ List.length outs = List.length eas
      /\ (forall Ps, Forall2 (fun P p => Yields P p) Ps ps ->
                     Forall2 (fun P r => P r) Ps outs)
      /\ ResultAsync.settle (ResultAsync.all timing eas) w
         = (w2, Normal (Result.sequence outs))).
  { rewrite settle_all.
    destruct (start_all_Yields eas w) as [Hlen Hall].
    destruct (start_all eas w) as [w1 ps]. simpl in Hlen, Hall.
    destruct (drain_started timing ps w1 Hall) as (w2 & outs & Hd & Hl & Htie).
    exists w1, ps, w2, outs. rewrite Hd. repeat split; try congruence. exact Htie. }
  split; [exact Hmain |]. split; [| split; [| split]].
  - intros rs Hrs.
    destruct Hmain as (w1 & ps & w2 & outs & Hs & _ & _ & _ & Htie & Hset).
    rewrite Hset. simpl. f_equal. f_equal.
    assert (Hps : Forall2 (fun P p => Yields P p) (List.map eq rs) ps).
    { clear - Hrs Hs. revert w w1 ps Hs.
      induction Hrs as [| r ea rs eas Hr _ IH]; intros w w1 ps Hs; simpl in Hs.
      - injection Hs as _ <-. constructor.
      - specialize (Hr w). destruct (ResultAsync.run ea w) as [w0 p].
        specialize (IH w0). destruct (start_all eas w0) as [w0' ps'].
        injection Hs as _ <-. simpl. constructor; [exact Hr |].
        eapply IH. reflexivity. }
    specialize (Htie _ Hps). clear - Htie.
    remember (List.map eq rs) as Ps eqn:HPs. revert rs HPs.
    induction Htie as [| P r Ps outs HP _ IH]; intros rs HPs.
    + destruct rs; [reflexivity | discriminate].
    + destruct rs as [| r' rs]; [discriminate |]. simpl in HPs.
      injection HPs as -> ->. f_equal; [symmetry; exact HP | apply IH; reflexivity].
  - intros vs e post. apply sequence_loop_first_Err.
  - intros vs. apply (sequence_loop_all_Ok vs []).
  - reflexivity.
Qed.

End CollectionFacts.

(** C2, the claim as worded fails: of a slow failure ["A"] listed first and
    an immediate failure ["B"] listed second, both are started, ["B"] is
    observed first, and [all] resolves to [Err "A"]. *)
Lemma all_completion_order_counterexample :
  completion_times no_delay [slow_failure; fast_failure] []
  = [(5, Err "A"); (2, Err "B")]
  /\ all_by_completion_order no_delay [slow_failure; fast_failure] [] = Err "B"
  /\ ResultAsync.settle (ResultAsync.all no_delay [slow_failure; fast_failure]) []
     = (["slow"; "fast"], Normal (Err "A"))
  /\ snd (ResultAsync.settle (ResultAsync.all no_delay [slow_failure; fast_failure]) [])
     <> Normal (all_by_completion_order no_delay [slow_failure; fast_failure] []).
Proof. repeat split. vm_compute. discriminate. Qed.

(** [all] on the two failures under a scheduling that holds the first
    element back further: by position, [Err "A"]. *)
Lemma all_runs_every_element_first_failure_by_position_witness :
  snd (ResultAsync.settle
         (ResultAsync.all (fun i k => 3 - i + k) [slow_failure; fast_failure]) [])
  = Normal (Result.sequence [Err "A"; Err "B"]).
Proof.
  apply (proj1 (proj2 (all_runs_every_element_first_failure_by_position
                         (fun i k => 3 - i + k) [slow_failure; fast_failure] []))).
  repeat constructor.
Defined.

(* ================================================================= *)
(** ** The theorems at the inputs of the test suite *)

(** [run] on a producer that fulfils after a turn, and on one whose promise
    rejects. *)
Lemma run_folds_every_failure_witness :
  ResultAsync.settle
    (ResultAsyncImpl (fun _ => ret (after 1 (Normal 5%Z))) : ResultAsync Log string Z) []
  = ([], Normal (Ok 5%Z))
  /\ ResultAsync.settle slow_failure [] = (["slow"], Normal (Err "A")).
Proof.
  split.
  - apply (proj1 (proj2 (proj2 (run_folds_every_failure _ _)))). reflexivity.
  - apply (proj1 (proj2 (proj2 (proj2 (run_folds_every_failure _ _))))). reflexivity.
Defined.

(** [sequence([A, B])] with [A] failing: [B]'s [fn] is not called. *)
Lemma sequence_stops_at_first_failure_witness :
  ResultAsync.settle (ResultAsync.sequence [slow_failure; counted_success]) []
  = (["slow"], Normal (Err "A"))
  /\ ResultAsync.settle
       (ResultAsync.sequence [ResultAsync.liftResult (Ok 1%Z); counted_success]) []
     = (["fn"], Normal (Ok [1%Z; 2%Z])).
Proof.
  split.
  - apply (proj1 (sequence_stops_at_first_failure [] [counted_success] slow_failure [])
             [] [] ["slow"] "A").
    + constructor.
    + reflexivity.
  - apply (proj1 (proj2 (sequence_stops_at_first_failure
                           [ResultAsync.liftResult (Ok 1%Z); counted_success] []
                           slow_failure []))).
    apply all_succeed_cons with (w1 := []); [reflexivity |].
    apply all_succeed_cons with (w1 := ["fn"]); [reflexivity |].
    constructor.
Defined.

(** [finally] with an effect that returns, after [Ok] and after [Err]. *)
Lemma finally_runs_effect_then_keeps_or_fails_witness :
  ResultAsync.settle
    (ResultAsync.finally (ResultAsync.liftResult (Ok 5%Z : Result string Z)) quiet_effect) []
  = (["effect"], Normal (Ok 5%Z))
  /\ ResultAsync.settle (ResultAsync.finally slow_failure quiet_effect) []
     = (["slow"; "effect"], Normal (Err "A")).
Proof.
  split.
  - assert (Hs : ResultAsync.settle
                   (ResultAsync.liftResult (Ok 5%Z : Result string Z)) ([] : Log)
                 = ([], Normal (Ok 5%Z))) by reflexivity.
    eapply (proj1 (finally_runs_effect_then_keeps_or_fails _ quiet_effect
                     [] [] (Ok 5%Z) Hs)); reflexivity.
  - eapply (proj1 (finally_runs_effect_then_keeps_or_fails
                     slow_failure quiet_effect
                     [] ["slow"] (Err "A") eq_refl)); reflexivity.
Defined.

(** [alt] with a succeeding receiver (the argument's [fn] is not called) and
    with a failing one. *)
Lemma alt_both_layers_witness :
  ResultAsync.settle
    (ResultAsync.alt (ResultAsync.liftResult (Ok 5%Z)) counted_success) []
  = ([], Normal (Ok 5%Z))
  /\ ResultAsync.settle (ResultAsync.alt slow_failure counted_success) []
     = (["slow"; "fn"], Normal (Ok 2%Z)).
Proof.
  split.
  - apply (proj1 (proj2 (proj2 (alt_both_layers 0%Z "" "" (Ok 0%Z)
             (ResultAsync.liftResult (Ok 5%Z)) counted_success [])))).
    reflexivity.
  - rewrite (proj2 (proj2 (proj2 (alt_both_layers 0%Z "" "" (Ok 0%Z)
             slow_failure counted_success []))) ["slow"] "A" eq_refl).
    reflexivity.
Defined.

(** [equals] at the inputs of the test suite. *)
Lemma equals_same_variant_strict_eq_witness :
  Result.equals (Ok (JsNumber 5) : Result JsValue JsValue) (Err (JsString "Error")) = false
  /\ Result.equals (Ok (JsNumber 5) : Result JsValue JsValue) (Ok (JsNumber 5)) = true.
Proof.
  split.
  - apply (proj1 (proj2 (equals_same_variant_strict_eq _ _))). discriminate.
  - apply (proj1 (equals_same_variant_strict_eq _ _)). left.
    exists (JsNumber 5), (JsNumber 5). repeat split.
Defined.

(** [all([A, B])] with [A] failing late: [B]'s [fn] is called all the same. *)
Example all_test_failure_still_runs_the_rest :
  ResultAsync.settle (ResultAsync.all no_delay [slow_failure; counted_success]) []
  = (["slow"; "fn"], Normal (Err "A")).
Proof. reflexivity. Qed.

Example all_test_success :
  ResultAsync.settle
    (ResultAsync.all no_delay [ResultAsync.liftResult (Ok 1%Z); counted_success]) []
  = (["fn"], Normal (Ok [1%Z; 2%Z])).
Proof. reflexivity. Qed.

(** [const value = await liftResult(Ok(5)); throwE('Test'); return value]. *)
Example run_test_throwE :
  ResultAsync.settle
    (ResultAsyncImpl (fun h =>
       async (bind (liftResult h (Ok 5%Z)) (fun p =>
                await p (fun value => throwE h "Test"))))
     : ResultAsync Log string Z) []
  = ([], Normal (Err "Test")).
Proof. reflexivity. Qed.

Example swap_test :
  ResultAsync.settle
    (ResultAsync.swap (ResultAsyncImpl (fun _ => ret (Fulfilled 5%Z)) : ResultAsync Log string Z)) []
  = ([], Normal (Err 5%Z))
  /\ ResultAsync.settle (ResultAsync.swap slow_failure) [] = (["slow"], Normal (Ok "A")).
Proof. split; reflexivity. Qed.

(* ================================================================= *)
(** ** More of Result.ts: how the operations compose *)

Section ResultAlgebra.
Context {World : Type}.

Lemma sequence_loop_by_errs_oks {E T} (l : list (Result E T)) :
  forall res,
  Result.sequence_loop l res =
  match Result.errs l with
  | [] => Ok (res ++ Result.oks l)%list
  | e :: _ => Err e
  end.
Proof.
  induction l as [| [e|v] l IH]; intro res; simpl.
  - rewrite app_nil_r. reflexivity.
  - reflexivity.
  - rewrite IH. destruct (Result.errs l); [| reflexivity].
    rewrite <- app_assoc. reflexivity.
Qed.

(** X1: [Result.sequence(list)] is [Err] of the first element of
    [Result.errs(list)] when there is one, and otherwise [Ok] of
    [Result.oks(list)]. *)
Theorem sequence_by_errs_oks {E T} (l : list (Result E T)) :
  Result.sequence l =
  match Result.errs l with
  | [] => Ok (Result.oks l)
  | e :: _ => Err e
  end.
Proof. unfold Result.sequence. rewrite sequence_loop_by_errs_oks. reflexivity. Qed.

(** X2: [errs] and [oks] split a list without losing or reordering
    anything: their lengths add up to the list's, each distributes over
    concatenation, and [errs] is [oks] of the swapped list (and conversely). *)
Theorem errs_oks_partition {E T} (l l' : list (Result E T)) :
  List.length (Result.errs l) + List.length (Result.oks l) = List.length l
  /\ Result.errs (l ++ l') = (Result.errs l ++ Result.errs l')%list
  /\ Result.oks (l ++ l') = (Result.oks l ++ Result.oks l')%list
  /\ Result.errs l = Result.oks (List.map Result.swap l)
  /\ Result.oks l = Result.errs (List.map Result.swap l).
Proof.
  repeat split.
  - induction l as [| [e|v] l IH]; simpl; lia.
  - induction l as [| [e|v] l IH]; simpl; congruence.
  - induction l as [| [e|v] l IH]; simpl; congruence.
  - induction l as [| [e|v] l IH]; simpl; congruence.
  - induction l as [| [e|v] l IH]; simpl; congruence.
Qed.

(** X3: [chain] obeys the monad laws with [Ok] as unit, [Err] is its left
    zero, [join] is [chain] with the identity and [map] is [chain] into
    [Ok]. *)
Theorem chain_monad_laws {E T T2 T3} (v : T) (e : E) (r : Result E T)
  (rr : Result E (Result E T)) (f : T -> Result E T2) (g : T2 -> Result E T3)
  (h : T -> T2) :
  Result.chain f (Ok v) = f v
  /\ Result.chain Ok r = r
  /\ Result.chain g (Result.chain f r) = Result.chain (fun x => Result.chain g (f x)) r
  /\ Result.chain f (Err e) = Err e
  /\ Result.join rr = Result.chain (fun x => x) rr
  /\ Result.map h r = Result.chain (fun x => Ok (h x)) r.
Proof. destruct r, rr; repeat split. Qed.

(** X4: [bimap] preserves identities and composition, and [map] and [mapErr]
    are its two halves. *)
Theorem bimap_functor_laws {E E2 E3 T T2 T3} (r : Result E T)
  (f : E -> E2) (f' : E2 -> E3) (g : T -> T2) (g' : T2 -> T3) :
  Result.bimap (fun e => e) (fun v => v) r = r
  /\ Result.bimap f' g' (Result.bimap f g r)
     = Result.bimap (fun e => f' (f e)) (fun v => g' (g v)) r
  /\ Result.map g r = Result.bimap (fun e => e) g r
  /\ Result.mapErr f r = Result.bimap f (fun v => v) r
  /\ Result.bimap f g r = Result.mapErr f (Result.map g r).
Proof. destruct r; repeat split. Qed.

(** X5: [swap] is an involution that exchanges the two sides of every
    operation: the variant tests, [map] and [mapErr], [chain] and [chainErr],
    [orDefault] and [errOrDefault], and the arguments of [bimap]. *)
Theorem swap_duality {E T E2 T2} (r : Result E T) (f : E -> E2) (g : T -> T2)
  (k : E -> Result E2 T) (d : E) :
  Result.swap (Result.swap r) = r
  /\ Result.isOk (Result.swap r) = Result.isErr r
  /\ Result.isErr (Result.swap r) = Result.isOk r
  /\ Result.mapErr f r = Result.swap (Result.map f (Result.swap r))
  /\ Result.chainErr k r
     = Result.swap (Result.chain (fun e => Result.swap (k e)) (Result.swap r))
  /\ Result.errOrDefault d r = Result.orDefault d (Result.swap r)
  /\ Result.swap (Result.bimap f g r) = Result.bimap g f (Result.swap r).
Proof.
  destruct r as [e|v]; repeat split.
  simpl. destruct (k e); reflexivity.
Qed.

(** X6: [alt] is associative, an [Err] receiver yields the argument, [alt] is
    [chainErr] with a constant function, and [altLazy] with a thunk that only
    returns agrees with [alt]. *)
Theorem alt_laws {X E T} (a b c : Result E T) (e : E) (w : World) :
  Result.alt (Result.alt a b) c = Result.alt a (Result.alt b c)
  /\ Result.alt (Err e) b = b
  /\ Result.alt a b = Result.chainErr (fun _ => b) a
  /\ Result.altLazy (X := X) a (ret b) w = (w, Normal (Result.alt a b)).
Proof. destruct a; repeat split. Qed.

Lemma js_strict_eq_trans (x y z : JsValue) :
  js_strict_eq x y = true -> js_strict_eq y z = true -> js_strict_eq x z = true.
Proof.
  destruct x, y; simpl; try discriminate; destruct z; simpl; try discriminate;
    try reflexivity.
  - destruct b, b0, b1; simpl; congruence.
  - intros H1 H2. apply Z.eqb_eq in H1, H2. apply Z.eqb_eq. congruence.
  - intros H1 H2. apply String.eqb_eq in H1, H2. apply String.eqb_eq. congruence.
  - intros H1 H2. apply Nat.eqb_eq in H1, H2. apply Nat.eqb_eq. congruence.
Qed.

Lemma js_strict_eq_refl (x : JsValue) :
  js_strict_eq x x = true <-> x <> JsNaN.
Proof.
  destruct x; simpl; split; intro H; try reflexivity; try discriminate.
  - destruct b; reflexivity.
  - apply Z.eqb_refl.
  - exfalso. apply H. reflexivity.
  - apply String.eqb_refl.
  - apply Nat.eqb_refl.
Qed.

(** X7: [equals] is symmetric and transitive, and an outcome equals itself
    exactly when its payload is not [NaN]. *)
Theorem equals_partial_equivalence (a b c : Result JsValue JsValue) (x : JsValue) :
  Result.equals a b = Result.equals b a
  /\ (Result.equals a b = true -> Result.equals b c = true ->
      Result.equals a c = true)
  /\ (Result.equals (Ok x : Result JsValue JsValue) (Ok x) = true <-> x <> JsNaN)
  /\ (Result.equals (Err x : Result JsValue JsValue) (Err x) = true <-> x <> JsNaN).
Proof.
  rewrite !equals_unfold. unfold strict_eq, JsValue_StrictEq.
  split; [| split; [| split]].
  - destruct a, b; try reflexivity; apply js_strict_eq_sym.
  - destruct a as [p|p], b as [q|q]; try discriminate;
      destruct c as [s|s]; try discriminate; intros H1 H2.
    + eapply js_strict_eq_trans; eassumption.
    + eapply js_strict_eq_trans; eassumption.
  - apply js_strict_eq_refl.
  - apply js_strict_eq_refl.
Qed.

(** X8: [encase] and [unsafeCoerce] undo each other up to the generic fault:
    [encase(() => r.unsafeCoerce())] is [r] when [r] is [Ok] or holds an
    [Error], and an [Err] of the generic fault otherwise; and
    [encase(f).unsafeCoerce()] returns what [f] returns, rethrows verbatim an
    [Error] that [f] throws, and throws the generic fault for anything else
    [f] throws.  Neither touches the world beyond what [f] does. *)
Theorem encase_unsafeCoerce_round_trip {X E T} (is_Error : E -> bool)
  (r : Result E T) (f : Sync World E T) (w : World) :
  Result.encase (X := X) (Result.unsafeCoerce is_Error r) w
  = (w, Normal (match r with
                | Ok v => Ok v
                | Err e =>
                    Err (if is_Error e then inl e
                         else inr Result.unsafeCoerce_message)
                end))
  /\ bind (Result.encase f) (Result.unsafeCoerce is_Error) w
     = (let (w', c) := f w in
        (w', match c with
             | Normal v => Normal v
             | Thrown e =>
                 Thrown (if is_Error e then inl e
                         else inr Result.unsafeCoerce_message)
             end)).
Proof.
  split.
  - destruct r as [e|v]; simpl; [| reflexivity].
    unfold Result.encase. simpl. destruct (is_Error e); reflexivity.
  - unfold bind, Result.encase. destruct (f w) as [w' [v|e]]; simpl.
    + reflexivity.
    + destruct (is_Error e); reflexivity.
Qed.

(** X9: the lazy defaults call their thunk only when the default is needed:
    [orDefaultLazy] on [Ok] and [errOrDefaultLazy] on [Err] return the payload
    and leave a counting thunk at zero; on the other variant the result is
    the thunk's call itself; and with a thunk that only returns [d] they
    agree with [orDefault(d)] and [errOrDefault(d)]. *)
Theorem lazy_defaults {X E T} (v d : T) (e de : E) (r : Result E T)
  (g : Sync World X T) (ge : Sync World X E) (w : World) (n : nat) :
  Result.orDefaultLazy (counted (fun _ : unit => g) tt) (Ok v : Result E T) (n, w)
  = ((n, w), Normal v)
  /\ Result.errOrDefaultLazy (counted (fun _ : unit => ge) tt) (Err e : Result E T) (n, w)
     = ((n, w), Normal e)
  /\ Result.orDefaultLazy g (Err e : Result E T) = g
  /\ Result.errOrDefaultLazy ge (Ok v : Result E T) = ge
  /\ Result.orDefaultLazy (X := X) (ret d) r w = (w, Normal (Result.orDefault d r))
  /\ Result.errOrDefaultLazy (X := X) (ret de) r w
     = (w, Normal (Result.errOrDefault de r)).
Proof. destruct r; repeat split. Qed.

(** X10: [extend] satisfies the laws of an extension: extending with
    [orDefault(d)] changes nothing, and two extensions in a row are one
    extension by the composite; [reduce] is [orDefault] after [map]. *)
Theorem extend_laws {E T T2 T3 U} (r : Result E T) (d : T)
  (g : Result E T -> T2) (f : Result E T2 -> T3) (red : U -> T -> U) (init : U) :
  Result.extend (Result.orDefault d) r = r
  /\ Result.extend f (Result.extend g r)
     = Result.extend (fun x => f (Result.extend g x)) r
  /\ Result.reduce red init r = Result.orDefault init (Result.map (red init) r).
Proof. destruct r; repeat split. Qed.

End ResultAlgebra.

(* ================================================================= *)
(** ** More of ResultAsync.ts: the combinators at the level of [run] *)

Section CombinatorFacts.
Context {World : Type}.

Lemma produce_map {E T T2} {R : Resolve World E T2} (f : T -> Sync World E T2)
  (this : ResultAsync World E T) (w : World) :
  produce (ResultAsync.map f this) w
  = (let (w1, c) := produce this w in
     match c with
     | Normal v =>
         match f v w1 with
         | (w2, Normal y) => drain (resolve y) w2
         | (w2, Thrown x) => (w2, Thrown x)
         end
     | Thrown e => (w1, Thrown e)
     end).
Proof.
  unfold produce, ResultAsync.map. cbn [runPromise]. unfold bind at 1.
  destruct (runPromise this helpers w) as [w0 [p|x]]; [| reflexivity].
  unfold ret. rewrite drain_then_.
  destruct (drain p w0) as [w1 [v|e]]; [| reflexivity].
  unfold settle_call, bind, ret. destruct (f v w1) as [w2 [y|x]]; reflexivity.
Qed.

(** X11: [map(f)] calls [f] on the receiver's value once the receiver has
    produced it, and not at all when the receiver fails; what [f] throws
    becomes the [Err], and what [f] returns is resolved: a thenable is
    followed, to [Ok] of its value or [Err] of its rejection.  Where the
    values at hand are not thenables, mapping the identity changes nothing
    and two maps in a row are one map by the composite; [void()] keeps the
    variant and forgets the value. *)
Theorem map_run {E T T2 T3} {R1 : Resolve World E T} {R2 : Resolve World E T2}
  {R3 : Resolve World E T3}
  (f : T -> Sync World E T2) (g : T2 -> Sync World E T3)
  (this : ResultAsync World E T) (w : World) :
  ResultAsync.settle (ResultAsync.map f this) w
  = (let (w1, c) := produce this w in
     match c with
     | Normal v =>
         match f v w1 with
         | (w2, Normal y) =>
             let (w3, d) := drain (resolve y) w2 in (w3, Normal (collapse d))
         | (w2, Thrown x) => (w2, Normal (Err x))
         end
     | Thrown e => (w1, Normal (Err e))
     end)
  /\ ((forall w1 v, produce this w = (w1, Normal v) ->
                    resolve v = Fulfilled v :> Promise World E T) ->
      ResultAsync.settle (ResultAsync.map (fun v => ret v) this) w
      = ResultAsync.settle this w)
  /\ ((forall w1 v w2 y, produce this w = (w1, Normal v) ->
                         f v w1 = (w2, Normal y) ->
                         resolve y = Fulfilled y :> Promise World E T2) ->
      ResultAsync.settle (ResultAsync.map g (ResultAsync.map f this)) w
      = ResultAsync.settle (ResultAsync.map (fun v => bind (f v) g) this) w)
  /\ ResultAsync.settle (ResultAsync.void this) w
     = (let (w1, c) := produce this w in
        (w1, Normal (Result.map (fun _ => tt) (collapse c)))).
Proof.
  split; [| split; [| split]].
  - rewrite settle_collapse, produce_map.
    destruct (produce this w) as [w1 [v|e]]; [| reflexivity].
    destruct (f v w1) as [w2 [y|x]]; [| reflexivity].
    destruct (drain (resolve y) w2) as [w3 d]. reflexivity.
  - intro Hplain. rewrite !settle_collapse, produce_map.
    destruct (produce this w) as [w1 [v|e]] eqn:Hp; [| reflexivity].
    unfold ret. rewrite (Hplain w1 v eq_refl). reflexivity.
  - intro Hplain. rewrite !settle_collapse, !produce_map.
    destruct (produce this w) as [w1 [v|e]] eqn:Hp; [| reflexivity].
    unfold bind. destruct (f v w1) as [w2 [y|x]] eqn:Hf; [| reflexivity].
    rewrite (Hplain w1 v w2 y eq_refl Hf). reflexivity.
  - unfold ResultAsync.void. rewrite settle_collapse, produce_map.
    destruct (produce this w) as [w1 [v|e]]; reflexivity.
Qed.

Lemma produce_mapErr {E T E2} (f : E -> Sync World E2 E2)
  (this : ResultAsync World E T) (w : World) :
  produce (ResultAsync.mapErr f this) w
  = (let (w1, c) := produce this w in
     match c with
     | Normal v => (w1, Normal v)
     | Thrown e =>
         let (w2, c2) := f e w1 in
         (w2, Thrown (match c2 with Normal y => y | Thrown x => x end))
     end).
Proof.
  unfold ResultAsync.mapErr. rewrite produce_async. unfold produce, settle_call.
  destruct (runPromise this helpers w) as [w0 [p|x]].
  - rewrite drain_then2. destruct (drain p w0) as [w1 [v|e]]; [reflexivity |].
    unfold settle_call, bind, throw. destruct (f e w1) as [w2 [y|x]]; reflexivity.
  - unfold bind, throw. destruct (f x w0) as [w2 [y|x']]; reflexivity.
Qed.

(** X12: [mapErr(f)] leaves a success untouched without calling [f], and on
    a failure [e] calls [f(e)] once: the result is [Err] of what [f] returns,
    or of what [f] throws.  With functions that only return, [mapErr] is
    [Result.mapErr] on the outcome and composes. *)
Theorem mapErr_run {E T E2 E3} (f : E -> Sync World E2 E2) (k : E -> E2) (k' : E2 -> E3)
  (this : ResultAsync World E T) (w : World) :
  ResultAsync.settle (ResultAsync.mapErr f this) w
  = (let (w1, c) := produce this w in
     match c with
     | Normal v => (w1, Normal (Ok v))
     | Thrown e =>
         let (w2, c2) := f e w1 in
         (w2, Normal (Err (match c2 with Normal y => y | Thrown x => x end)))
     end)
  /\ ResultAsync.settle (ResultAsync.mapErr (fun e => ret (k e)) this) w
     = (let (w1, c) := produce this w in
        (w1, Normal (Result.mapErr k (collapse c))))
  /\ ResultAsync.settle
       (ResultAsync.mapErr (fun e => ret (k' e)) (ResultAsync.mapErr (fun e => ret (k e)) this)) w
     = ResultAsync.settle (ResultAsync.mapErr (fun e => ret (k' (k e))) this) w.
Proof.
  rewrite !settle_collapse, !produce_mapErr.
  destruct (produce this w) as [w1 [v|e]]; unfold ret.
  - repeat split.
  - destruct (f e w1) as [w2 [y|x]]; repeat split.
Qed.

Lemma produce_bimap {E T E2 T2} {R : Resolve World E2 T2}
  (f : E -> Sync World E2 E2) (g : T -> Sync World E2 T2)
  (this : ResultAsync World E T) (w : World) :
  produce (ResultAsync.bimap f g this) w
  = (let (w1, c) := produce this w in
     match c with
     | Normal v =>
         match g v w1 with
         | (w2, Normal y) => drain (resolve y) w2
         | (w2, Thrown x) => (w2, Thrown x)
         end
     | Thrown e =>
         let (w2, c2) := f e w1 in
         (w2, Thrown (match c2 with Normal y => y | Thrown x => x end))
     end).
Proof.
  unfold ResultAsync.bimap. rewrite produce_async.
  pose proof (drain_run (E' := E2) this w) as Hrun.
  unfold settle_call at 1. destruct (ResultAsync.run this w) as [w0 p].
  unfold await, ret. rewrite drain_then_, Hrun.
  destruct (produce this w) as [w1 [v|e]]; cbn [collapse].
  - unfold settle_call, bind. destruct (g v w1) as [w2 [y|x]]; reflexivity.
  - unfold settle_call, bind. destruct (f e w1) as [w2 [y|x]]; reflexivity.
Qed.

(** X13: [bimap(f, g)] calls [g] on a success and [f] on a failure, never
    both; what [g] returns is resolved, so a thenable is followed, while
    what [f] returns is the [Err] as it is.  With functions that only return,
    and values that are not thenables, it is [Result.bimap] on the outcome,
    and it is [map(g)] followed by [mapErr(f)]. *)
Theorem bimap_run {E T E2 T2} {R : Resolve World E2 T2} {R' : Resolve World E T2}
  (f : E -> Sync World E2 E2) (g : T -> Sync World E2 T2)
  (k : E -> E2) (h : T -> T2) (this : ResultAsync World E T) (w : World) :
  ResultAsync.settle (ResultAsync.bimap f g this) w
  = (let (w1, c) := produce this w in
     match c with
     | Normal v =>
         match g v w1 with
         | (w2, Normal y) =>
             let (w3, d) := drain (resolve y) w2 in (w3, Normal (collapse d))
         | (w2, Thrown x) => (w2, Normal (Err x))
         end
     | Thrown e =>
         let (w2, c2) := f e w1 in
         (w2, Normal (Err (match c2 with Normal y => y | Thrown x => x end)))
     end)
  /\ ((forall w1 v, produce this w = (w1, Normal v) ->
                    resolve (h v) = Fulfilled (h v) :> Promise World E2 T2) ->
      ResultAsync.settle
        (ResultAsync.bimap (fun e => ret (k e)) (fun v => ret (h v)) this) w
      = (let (w1, c) := produce this w in
         (w1, Normal (Result.bimap k h (collapse c)))))
  /\ ((forall w1 v, produce this w = (w1, Normal v) ->
                    resolve (h v) = Fulfilled (h v) :> Promise World E2 T2) ->
      (forall w1 v, produce this w = (w1, Normal v) ->
                    resolve (h v) = Fulfilled (h v) :> Promise World E T2) ->
      ResultAsync.settle (ResultAsync.bimap f (fun v => ret (h v)) this) w
      = ResultAsync.settle
          (ResultAsync.mapErr f (ResultAsync.map (fun v => ret (h v)) this)) w).
Proof.
  split; [| split].
  - rewrite settle_collapse, produce_bimap.
    destruct (produce this w) as [w1 [v|e]].
    + destruct (g v w1) as [w2 [y|x]]; [| reflexivity].
      destruct (drain (resolve y) w2) as [w3 d]. reflexivity.
    + destruct (f e w1) as [w2 [y|x]]; reflexivity.
  - intro Hplain. rewrite settle_collapse, produce_bimap.
    destruct (produce this w) as [w1 [v|e]] eqn:Hp; unfold ret.
    + rewrite (Hplain w1 v eq_refl). reflexivity.
    + reflexivity.
  - intros Hplain Hplain'.
    rewrite !settle_collapse, produce_bimap, produce_mapErr, produce_map.
    destruct (produce this w) as [w1 [v|e]] eqn:Hp; unfold ret.
    + rewrite (Hplain w1 v eq_refl), (Hplain' w1 v eq_refl). reflexivity.
    + destruct (f e w1) as [w2 [y|x]]; reflexivity.
Qed.

Lemma produce_chain {E T T2} {R : Resolve World E T2}
  (f : T -> Sync World E (Promise World E (Result E T2)))
  (this : ResultAsync World E T) (w : World) :
  produce (ResultAsync.chain f this) w
  = (let (w1, c) := produce this w in
     match c with
     | Normal v =>
         match f v w1 with
         | (w2, Normal q) =>
             let (w3, d) := drain q w2 in
             match d with
             | Normal (Ok y) => drain (resolve y) w3
             | Normal (Err e) => (w3, Thrown e)
             | Thrown x => (w3, Thrown x)
             end
         | (w2, Thrown x) => (w2, Thrown x)
         end
     | Thrown e => (w1, Thrown e)
     end).
Proof.
  unfold ResultAsync.chain. rewrite produce_async. unfold produce.
  unfold settle_call at 1, bind at 1.
  destruct (runPromise this helpers w) as [w0 [p|x]]; [| reflexivity].
  unfold await, ret. rewrite drain_then_.
  destruct (drain p w0) as [w1 [v|e]]; [| reflexivity].
  unfold settle_call, bind. destruct (f v w1) as [w2 [q|x]]; [| reflexivity].
  cbn [fromPromise helpers]. unfold helpers_fromPromise, ret.
  rewrite drain_then_. destruct (drain q w2) as [w3 [[e|y]|x]]; reflexivity.
Qed.

Lemma settle_chain_ResultAsync {E T T2} {R : Resolve World E T2}
  (f : T -> ResultAsync World E T2) (this : ResultAsync World E T) (w : World) :
  (forall y : T2, resolve y = Fulfilled y :> Promise World E T2) ->
  ResultAsync.settle (ResultAsync.chain (fun v => ResultAsync.promiseLike (f v)) this) w
  = (let (w1, c) := produce this w in
     match c with
     | Normal v => ResultAsync.settle (f v) w1
     | Thrown e => (w1, Normal (Err e))
     end).
Proof.
  intro Hplain. rewrite settle_collapse, produce_chain.
  destruct (produce this w) as [w1 [v|e]]; [| reflexivity].
  unfold ResultAsync.promiseLike.
  pose proof (drain_run (E' := E) (f v) w1) as Hrun. rewrite settle_collapse.
  destruct (ResultAsync.run (f v) w1) as [w2 q]. rewrite Hrun.
  destruct (produce (f v) w1) as [w3 [y|e]]; cbn [collapse]; [| reflexivity].
  rewrite Hplain. reflexivity.
Qed.

Lemma settle_liftResult_Ok {E T} {R : Resolve World E T} (v : T) (w : World) :
  produce (ResultAsync.liftResult (Ok v)) w = drain (resolve v) w.
Proof. reflexivity. Qed.

(** X14: [chain(f)] runs the receiver, and then, only on a success [v], runs
    [f(v)]: a failure of [f(v)] is the result, and a success is resolved, a
    thenable being followed; a failing receiver is the result and [f] is not
    called.  [liftResult(Ok(v))] resolves [v] before [f] sees it.  On values
    that are not thenables the outcome of [f(v)] is the result, and with
    [liftResult(Ok(v))] as unit [chain] obeys the monad laws at the level of
    [run]. *)
Theorem chain_run {E T T2 T3} {R1 : Resolve World E T} {R2 : Resolve World E T2}
  {R3 : Resolve World E T3}
  (k : T -> Sync World E (Promise World E (Result E T2)))
  (f : T -> ResultAsync World E T2) (g : T2 -> ResultAsync World E T3) (v : T)
  (this : ResultAsync World E T) (w : World) :
  ResultAsync.settle (ResultAsync.chain k this) w
  = (let (w1, c) := produce this w in
     match c with
     | Normal x =>
         match k x w1 with
         | (w2, Normal q) =>
             let (w3, d) := drain q w2 in
             match d with
             | Normal (Ok y) =>
                 let (w4, d') := drain (resolve y) w3 in (w4, Normal (collapse d'))
             | Normal (Err e) => (w3, Normal (Err e))
             | Thrown x' => (w3, Normal (Err x'))
             end
         | (w2, Thrown x') => (w2, Normal (Err x'))
         end
     | Thrown e => (w1, Normal (Err e))
     end)
  /\ ((forall y : T2, resolve y = Fulfilled y :> Promise World E T2) ->
      ResultAsync.settle
        (ResultAsync.chain (fun x => ResultAsync.promiseLike (f x)) this) w
      = (let (w1, c) := produce this w in
         match c with
         | Normal x => ResultAsync.settle (f x) w1
         | Thrown e => (w1, Normal (Err e))
         end)
      /\ ResultAsync.settle
           (ResultAsync.chain (fun x => ResultAsync.promiseLike (f x))
              (ResultAsync.liftResult (Ok v))) w
         = (let (w1, d) := drain (resolve v) w in
            match d with
            | Normal v' => ResultAsync.settle (f v') w1
            | Thrown e => (w1, Normal (Err e))
            end)
      /\ (resolve v = Fulfilled v :> Promise World E T ->
          ResultAsync.settle
            (ResultAsync.chain (fun x => ResultAsync.promiseLike (f x))
               (ResultAsync.liftResult (Ok v))) w
          = ResultAsync.settle (f v) w)
      /\ ((forall z : T3, resolve z = Fulfilled z :> Promise World E T3) ->
          ResultAsync.settle
            (ResultAsync.chain (fun y => ResultAsync.promiseLike (g y))
               (ResultAsync.chain (fun x => ResultAsync.promiseLike (f x)) this)) w
          = ResultAsync.settle
              (ResultAsync.chain
                 (fun x => ResultAsync.promiseLike
                             (ResultAsync.chain
                                (fun y => ResultAsync.promiseLike (g y)) (f x)))
                 this) w))
  /\ ((forall x : T, resolve x = Fulfilled x :> Promise World E T) ->
      ResultAsync.settle
        (ResultAsync.chain
           (fun x => ResultAsync.promiseLike (ResultAsync.liftResult (Ok x))) this) w
      = ResultAsync.settle this w).
Proof.
  split; [| split].
  - rewrite settle_collapse, produce_chain.
    destruct (produce this w) as [w1 [x|e]]; [| reflexivity].
    destruct (k x w1) as [w2 [q|x']]; [| reflexivity].
    destruct (drain q w2) as [w3 [[e|y]|x']]; reflexivity.
  - intro H2. split; [apply settle_chain_ResultAsync, H2 |].
    assert (Hleft :
      ResultAsync.settle
        (ResultAsync.chain (fun x => ResultAsync.promiseLike (f x))
           (ResultAsync.liftResult (Ok v))) w
      = (let (w1, d) := drain (resolve v) w in
         match d with
         | Normal v' => ResultAsync.settle (f v') w1
         | Thrown e => (w1, Normal (Err e))
         end)).
    { rewrite (settle_chain_ResultAsync f _ w H2), settle_liftResult_Ok.
      destruct (drain (resolve v) w) as [w1 [v'|e]]; reflexivity. }
    split; [exact Hleft |]. split.
    + intro Hv. rewrite Hleft, Hv. reflexivity.
    + intro H3.
      rewrite (settle_chain_ResultAsync g _ w H3).
      rewrite (settle_chain_ResultAsync _ this w H3).
      rewrite produce_chain.
      destruct (produce this w) as [w1 [x|e]]; [| reflexivity].
      rewrite (settle_chain_ResultAsync g (f x) w1 H3).
      unfold ResultAsync.promiseLike.
      pose proof (drain_run (E' := E) (f x) w1) as Hrun.
      destruct (ResultAsync.run (f x) w1) as [w2 q]. rewrite Hrun.
      destruct (produce (f x) w1) as [w3 [y|e]]; cbn [collapse]; [| reflexivity].
      rewrite H2. cbn [drain].
      rewrite settle_collapse. destruct (produce (g y) w3) as [w4 c4]. reflexivity.
  - intro H1. rewrite (settle_chain_ResultAsync _ this w H1), settle_collapse.
    destruct (produce this w) as [w1 [x|e]]; [| reflexivity].
    rewrite settle_collapse, settle_liftResult_Ok, H1. reflexivity.
Qed.

Lemma produce_chainErr {E T E2}
  (f : E -> Sync World E2 (Promise World E2 (Result E2 T)))
  (this : ResultAsync World E T) (w : World) :
  produce (ResultAsync.chainErr f this) w
  = (let (w1, c) := produce this w in
     match c with
     | Normal v => (w1, Normal v)
     | Thrown e =>
         match f e w1 with
         | (w2, Normal q) =>
             let (w3, d) := drain q w2 in
             (w3, match d with
                  | Normal (Ok y) => Normal y
                  | Normal (Err e2) => Thrown e2
                  | Thrown x => Thrown x
                  end)
         | (w2, Thrown x) => (w2, Thrown x)
         end
     end).
Proof.
  unfold ResultAsync.chainErr. rewrite produce_async. unfold produce, settle_call at 1.
  destruct (runPromise this helpers w) as [w0 [p|x]].
  - rewrite drain_then2. destruct (drain p w0) as [w1 [v|e]]; [reflexivity |].
    unfold settle_call, bind. destruct (f e w1) as [w2 [q|x]]; [| reflexivity].
    cbn [fromPromise helpers]. unfold helpers_fromPromise, ret.
    rewrite drain_then_. destruct (drain q w2) as [w3 [[e2|y]|x]]; reflexivity.
  - unfold bind. destruct (f x w0) as [w2 [q|x']]; [| reflexivity].
    cbn [fromPromise helpers]. unfold helpers_fromPromise, ret.
    rewrite drain_then_. destruct (drain q w2) as [w3 [[e2|y]|x']]; reflexivity.
Qed.

Lemma settle_chainErr_ResultAsync {E T E2} (f : E -> ResultAsync World E2 T)
  (this : ResultAsync World E T) (w : World) :
  ResultAsync.settle (ResultAsync.chainErr (fun e => ResultAsync.promiseLike (f e)) this) w
  = (let (w1, c) := produce this w in
     match c with
     | Normal v => (w1, Normal (Ok v))
     | Thrown e => ResultAsync.settle (f e) w1
     end).
Proof.
  rewrite settle_collapse, produce_chainErr.
  destruct (produce this w) as [w1 [v|e]]; [reflexivity |].
  unfold ResultAsync.promiseLike.
  pose proof (drain_run (E' := E2) (f e) w1) as Hrun. rewrite settle_collapse.
  destruct (ResultAsync.run (f e) w1) as [w2 q]. rewrite Hrun.
  destruct (produce (f e) w1) as [w3 [y|e2]]; reflexivity.
Qed.

Lemma produce_alt {E T} (this other : ResultAsync World E T) (w : World) :
  produce (ResultAsync.alt this other) w
  = (let (w1, c) := produce this w in
     match c with
     | Normal v => (w1, Normal v)
     | Thrown _ => produce other w1
     end).
Proof.
  unfold ResultAsync.alt.
  rewrite produce_async, drain_await, drain_adopt.
  destruct (produce this w) as [w1 [v|e]]; cbn [collapse]; [reflexivity |].
  rewrite drain_await, drain_adopt.
  destruct (produce other w1) as [w2 [v|e2]]; reflexivity.
Qed.

(** X15: [chainErr(f)] passes a success through without calling [f], and on
    a failure [e] the result is the outcome of [f(e)], run after the
    receiver.  [alt(other)] is [chainErr] with the constant function
    [() => other], and [alt] is associative at the level of [run]. *)
Theorem chainErr_run {E T E2} (f : E -> ResultAsync World E2 T)
  (this other third : ResultAsync World E T) (w : World) :
  ResultAsync.settle (ResultAsync.chainErr (fun e => ResultAsync.promiseLike (f e)) this) w
  = (let (w1, c) := produce this w in
     match c with
     | Normal v => (w1, Normal (Ok v))
     | Thrown e => ResultAsync.settle (f e) w1
     end)
  /\ ResultAsync.settle (ResultAsync.alt this other) w
     = ResultAsync.settle
         (ResultAsync.chainErr (fun _ => ResultAsync.promiseLike other) this) w
  /\ ResultAsync.settle (ResultAsync.alt (ResultAsync.alt this other) third) w
     = ResultAsync.settle (ResultAsync.alt this (ResultAsync.alt other third)) w.
Proof.
  split; [apply settle_chainErr_ResultAsync |]. split.
  - rewrite settle_alt, settle_chainErr_ResultAsync. reflexivity.
  - rewrite (settle_alt (ResultAsync.alt this other) third).
    rewrite (settle_alt this (ResultAsync.alt other third)).
    rewrite produce_alt.
    destruct (produce this w) as [w1 [v|e]]; [reflexivity |].
    rewrite settle_alt. reflexivity.
Qed.

(** X16: [ap(resultF)] awaits the function side first.  When that side
    fails ([Err e], or a rejection with [e]) the result is [Err e] and the
    receiver is not run; when it gives [Ok fn] the receiver is run after it:
    a failing receiver is the result, and on a success [v] what [fn(v)]
    returns is resolved, a thenable being followed.  When [fn(v)] is not a
    thenable the result is what the synchronous [ap] gives on the two
    outcomes. *)
Theorem ap_run {E T T2} {R : Resolve World E T2}
  (resultF : Promise World E (Result E (T -> T2)))
  (this : ResultAsync World E T) (w : World) :
  ResultAsync.settle (ResultAsync.ap resultF this) w
  = (let (w1, d) := drain resultF w in
     match d with
     | Normal (Ok fn) =>
         let (w2, c) := produce this w1 in
         match c with
         | Normal v =>
             let (w3, d') := drain (resolve (fn v)) w2 in
             (w3, Normal (collapse d'))
         | Thrown e => (w2, Normal (Err e))
         end
     | Normal (Err e) => (w1, Normal (Err e))
     | Thrown e => (w1, Normal (Err e))
     end)
  /\ ((forall y : T2, resolve y = Fulfilled y :> Promise World E T2) ->
      ResultAsync.settle (ResultAsync.ap resultF this) w
      = (let (w1, d) := drain resultF w in
         match d with
         | Normal (Ok fn) =>
             let (w2, c) := produce this w1 in
             (w2, Normal (Result.ap (collapse c) (Ok fn)))
         | Normal (Err e) => (w1, Normal (Err e))
         | Thrown e => (w1, Normal (Err e))
         end))
  /\ (forall (r : Result E T) (e : E),
        Result.ap r (Err e : Result E (T -> T2)) = Err e).
Proof.
  assert (Hgen :
    ResultAsync.settle (ResultAsync.ap resultF this) w
    = (let (w1, d) := drain resultF w in
       match d with
       | Normal (Ok fn) =>
           let (w2, c) := produce this w1 in
           match c with
           | Normal v =>
               let (w3, d') := drain (resolve (fn v)) w2 in
               (w3, Normal (collapse d'))
           | Thrown e => (w2, Normal (Err e))
           end
       | Normal (Err e) => (w1, Normal (Err e))
       | Thrown e => (w1, Normal (Err e))
       end)).
  { rewrite settle_collapse. unfold ResultAsync.ap.
    rewrite produce_async, drain_await.
    destruct (drain resultF w) as [w1 [[e|fn]|x]]; try reflexivity.
    rewrite drain_await, drain_adopt.
    destruct (produce this w1) as [w2 [v|e]]; cbn [collapse]; [| reflexivity].
    unfold settle_call, ret.
    destruct (drain (resolve (fn v)) w2) as [w3 d']. reflexivity. }
  split; [exact Hgen |]. split.
  - intro Hplain. rewrite Hgen.
    destruct (drain resultF w) as [w1 [[e|fn]|x]]; try reflexivity.
    destruct (produce this w1) as [w2 [v|e]]; [| reflexivity].
    rewrite Hplain. reflexivity.
  - intros [e'|v] e; reflexivity.
Qed.

(** X17: [extend(f)] passes a failure through without calling [f]; on a
    success [v] it calls [f] once, on [ResultAsync.liftResult(Ok(v))], which
    does not run the receiver again and resolves to [Ok v] in any world when
    [v] is not a thenable; what [f] returns is resolved, a thenable being
    followed to [Ok] of its value or [Err] of its rejection, and what [f]
    throws is the [Err]. *)
Theorem extend_run {E T T2} {R1 : Resolve World E T} {R : Resolve World E T2}
  (f : ResultAsync World E T -> Sync World E T2)
  (this : ResultAsync World E T) (w : World) :
  ResultAsync.settle (ResultAsync.extend f this) w
  = (let (w1, c) := produce this w in
     match c with
     | Normal v =>
         match f (ResultAsync.liftResult (Ok v)) w1 with
         | (w2, Normal y) =>
             let (w3, d) := drain (resolve y) w2 in (w3, Normal (collapse d))
         | (w2, Thrown x) => (w2, Normal (Err x))
         end
     | Thrown e => (w1, Normal (Err e))
     end)
  /\ (forall (v : T) (w' : World),
        ResultAsync.settle (ResultAsync.liftResult (Ok v) : ResultAsync World E T) w'
        = (let (w'', d) := drain (resolve v) w' in (w'', Normal (collapse d))))
  /\ (forall (v : T) (w' : World),
        resolve v = Fulfilled v :> Promise World E T ->
        ResultAsync.settle (ResultAsync.liftResult (Ok v) : ResultAsync World E T) w'
        = (w', Normal (Ok v))).
Proof.
  split; [| split].
  - rewrite settle_collapse. unfold ResultAsync.extend. rewrite produce_async.
    pose proof (drain_run (E' := E) this w) as Hrun.
    unfold settle_call at 1. destruct (ResultAsync.run this w) as [w0 p].
    unfold await, ret. rewrite drain_then_, Hrun.
    destruct (produce this w) as [w1 [v|e]]; cbn [collapse]; [| reflexivity].
    unfold settle_call, bind.
    destruct (f (ResultAsync.liftResult (Ok v)) w1) as [w2 [y|x]]; [| reflexivity].
    cbn [liftResult helpers]. unfold helpers_liftResult, ret.
    destruct (drain (resolve y) w2) as [w3 d]. reflexivity.
  - intros v w'. rewrite settle_collapse, settle_liftResult_Ok. reflexivity.
  - intros v w' Hv. rewrite settle_collapse, settle_liftResult_Ok, Hv. reflexivity.
Qed.

(** X18: [ifErr(effect)] and [ifOk(effect)] run the receiver, call the
    effect once when the variant matches and not at all otherwise, and
    resolve to the receiver's outcome whatever the effect returns; an effect
    that throws [x] turns the result into [Err x]. *)
Theorem ifErr_ifOk_run {E T U} (onErr : E -> Sync World E U) (onOk : T -> Sync World E U)
  (this : ResultAsync World E T) (w : World) :
  ResultAsync.settle (ResultAsync.ifErr onErr this) w
  = (let (w1, c) := produce this w in
     match c with
     | Normal v => (w1, Normal (Ok v))
     | Thrown e =>
         let (w2, c2) := onErr e w1 in
         (w2, Normal (Err (match c2 with Normal _ => e | Thrown x => x end)))
     end)
  /\ ResultAsync.settle (ResultAsync.ifOk onOk this) w
     = (let (w1, c) := produce this w in
        match c with
        | Normal v =>
            let (w2, c2) := onOk v w1 in
            (w2, Normal (match c2 with Normal _ => Ok v | Thrown x => Err x end))
        | Thrown e => (w1, Normal (Err e))
        end).
Proof.
  split.
  - rewrite settle_collapse. unfold ResultAsync.ifErr. rewrite produce_async.
    pose proof (drain_run (E' := E) this w) as Hrun.
    unfold settle_call at 1. destruct (ResultAsync.run this w) as [w0 p].
    unfold await, ret. rewrite drain_then_, Hrun.
    destruct (produce this w) as [w1 [v|e]]; cbn [collapse]; [reflexivity |].
    unfold settle_call, bind. cbn [Result.ifErr]. unfold bind.
    destruct (onErr e w1) as [w2 [u|x]]; reflexivity.
  - rewrite settle_collapse. unfold ResultAsync.ifOk. rewrite produce_async.
    pose proof (drain_run (E' := E) this w) as Hrun.
    unfold settle_call at 1. destruct (ResultAsync.run this w) as [w0 p].
    unfold await, ret. rewrite drain_then_, Hrun.
    destruct (produce this w) as [w1 [v|e]]; cbn [collapse]; [| reflexivity].
    unfold settle_call, bind. cbn [Result.ifOk]. unfold bind.
    destruct (onOk v w1) as [w2 [u|x]]; reflexivity.
Qed.

(** X19: [then(onfulfilled, onrejected)] never calls [onrejected]: whatever
    the producer does, [onfulfilled] receives the outcome of [run()], and two
    calls of [then] that differ only in [onrejected] behave the same. *)
Theorem then_never_rejects {E T E' B} (this : ResultAsync World E T)
  (onfulfilled : Result E T -> Sync World E' (Promise World E' B))
  (onrejected onrejected' : E' -> Sync World E' (Promise World E' B)) (w : World) :
  awaited (ResultAsync.then_method this onfulfilled onrejected) w
  = (let (w1, c) := produce this w in
     let (w2, q) := settle_call (onfulfilled (collapse c)) w1 in
     drain q w2)
  /\ awaited (ResultAsync.then_method this onfulfilled onrejected) w
     = awaited (ResultAsync.then_method this onfulfilled onrejected') w.
Proof.
  assert (Hgen : forall onR,
    awaited (ResultAsync.then_method this onfulfilled onR) w
    = (let (w1, c) := produce this w in
       let (w2, q) := settle_call (onfulfilled (collapse c)) w1 in
       drain q w2)).
  { intro onR. unfold awaited, ResultAsync.then_method.
    pose proof (drain_run (E' := E') this w) as Hrun.
    destruct (ResultAsync.run this w) as [w0 p].
    rewrite drain_then2, Hrun. destruct (produce this w) as [w1 c]. reflexivity. }
  split; [apply Hgen | rewrite !Hgen; reflexivity].
Qed.

(** X20: the promises of [orDefault(d)] and [errOrDefault(d)] resolve with
    what [Result.orDefault(d)] and [Result.errOrDefault(d)] give on the
    outcome of [run()]: when that is not a thenable they fulfil with it and
    never reject; a thenable (a default, or the payload of a failure) is
    followed, and its rejection rejects the promise. *)
Theorem orDefault_run {E T E'} {R : Resolve World E' T} {R' : Resolve World E' E}
  (d : T) (de : E) (this : ResultAsync World E T) (w : World) :
  awaited (ResultAsync.orDefault (E' := E') d this) w
  = (let (w1, c) := produce this w in
     drain (resolve (Result.orDefault d (collapse c))) w1)
  /\ awaited (ResultAsync.errOrDefault (E' := E') de this) w
     = (let (w1, c) := produce this w in
        drain (resolve (Result.errOrDefault de (collapse c))) w1)
  /\ ((forall v : T, resolve v = Fulfilled v :> Promise World E' T) ->
      awaited (ResultAsync.orDefault (E' := E') d this) w
      = (let (w1, c) := produce this w in
         (w1, Normal (Result.orDefault d (collapse c)))))
  /\ ((forall e : E, resolve e = Fulfilled e :> Promise World E' E) ->
      awaited (ResultAsync.errOrDefault (E' := E') de this) w
      = (let (w1, c) := produce this w in
         (w1, Normal (Result.errOrDefault de (collapse c))))).
Proof.
  pose proof (drain_run (E' := E') this w) as Hrun.
  unfold awaited, ResultAsync.orDefault, ResultAsync.errOrDefault.
  destruct (ResultAsync.run this w) as [w0 p].
  rewrite !drain_then_, Hrun. destruct (produce this w) as [w1 c].
  unfold settle_call, ret.
  split; [reflexivity |]. split; [reflexivity |]. split.
  - intro Hplain. rewrite Hplain. reflexivity.
  - intro Hplain. rewrite Hplain. reflexivity.
Qed.

(** X21: [ResultAsync.fromPromise(() => ea.run())] is [ea] again, and
    [ResultAsync.fromPromise] of a promise already settled to an outcome [r]
    is [ResultAsync.liftResult(r)]; both at the level of [run]. *)
Theorem fromPromise_round_trip {E T} (this : ResultAsync World E T)
  (r : Result E T) (w : World) :
  ResultAsync.settle (ResultAsync.fromPromise (ResultAsync.promiseLike this)) w
  = ResultAsync.settle this w
  /\ ResultAsync.settle (ResultAsync.fromPromise (ret (Fulfilled r))) w
     = ResultAsync.settle (ResultAsync.liftResult r) w.
Proof.
  split.
  - rewrite !settle_collapse. unfold produce at 1, ResultAsync.fromPromise.
    cbn [runPromise]. unfold bind, ResultAsync.promiseLike.
    pose proof (drain_run (E' := E) this w) as Hrun.
    destruct (ResultAsync.run this w) as [w0 p].
    cbn [fromPromise helpers]. unfold helpers_fromPromise, ret.
    rewrite drain_then_, Hrun.
    destruct (produce this w) as [w1 [v|e]]; reflexivity.
  - destruct r; reflexivity.
Qed.

(** X22: [ResultAsync.errs(list)] and [ResultAsync.oks(list)] start every
    element, in input order, never reject, and fulfil with [Result.errs] and
    [Result.oks] of the outcomes in input order, the outcome at each position
    being one of the element at that position, whatever the order the host
    settles them in; run from the same world under the same scheduling,
    [all(list)] sees the same outcomes and resolves to [Err] of the first
    element of [errs(list)] when there is one, and otherwise to [Ok] of
    [oks(list)]. *)
Theorem errs_oks_all_agree {E T} (timing : nat -> nat -> nat)
  (eas : list (ResultAsync World E T)) (w : World) :
  exists w1 ps w2 outs,
    start_all eas w = (w1, ps)
    /\ drain (Promise_all (stagger timing 0 ps)) w1 = (w2, Normal outs)
    /\ List.length outs = List.length eas
    /\ (forall Ps, Forall2 (fun P p => Yields P p) Ps ps ->
                   Forall2 (fun P r => P r) Ps outs)
    /\ awaited (ResultAsync.errs (E' := E) timing eas) w
       = (w2, Normal (Result.errs outs))
    /\ awaited (ResultAsync.oks (E' := E) timing eas) w
       = (w2, Normal (Result.oks outs))
    /\ ResultAsync.settle (ResultAsync.all timing eas) w
       = (w2, Normal (match Result.errs outs with
                      | [] => Ok (Result.oks outs)
                      | e :: _ => Err e
                      end)).
Proof.
  pose proof (settle_all timing eas w) as Hall.
  unfold awaited, ResultAsync.errs, ResultAsync.oks. rewrite run_all_start_all.
  destruct (start_all_Yields eas w) as [Hlen HY].
  destruct (start_all eas w) as [w1 ps]. simpl in Hlen, HY.
  destruct (drain_started timing ps w1 HY) as (w2 & outs & Hd & Hl & Htie).
  exists w1, ps, w2, outs. rewrite !drain_then_, Hd. rewrite Hd in Hall.
  rewrite Hall. unfold Result.sequence. rewrite sequence_loop_by_errs_oks.
  repeat split; try congruence. exact Htie.
Qed.

Lemma Quiet_drain {E A} (a : A) (p : Promise World E A) :
  Quiet a p -> forall w, drain p w = (w, Normal a).
Proof.
  induction 1 as [| k Hfst _ IH]; intro w; [reflexivity |].
  simpl. specialize (Hfst w). specialize (IH w).
  destruct (k w) as [w' p']. simpl in Hfst. subst w'. apply IH.
Qed.

Lemma Quiet_pmap {E A B} (f : A -> B) (a : A) (q : Promise World E A) :
  Quiet a q -> Quiet (f a) (pmap f q).
Proof.
  induction 1 as [| k Hfst _ IH]; simpl; constructor; intro w.
  - specialize (Hfst w). destruct (k w). exact Hfst.
  - specialize (IH w). destruct (k w). exact IH.
Qed.

Lemma Quiet_join_cons {E A} (a : A) (l : list A) (p : Promise World E A) :
  Quiet a p -> forall q, Quiet l q -> Quiet (a :: l) (join_cons p q).
Proof.
  induction 1 as [| kp Hp _ IH]; intros q Hq.
  - simpl. apply Quiet_pmap, Hq.
  - destruct Hq as [| kq Hq1 Hq2]; simpl; constructor; intro w.
    + specialize (Hp w). destruct (kp w). exact Hp.
    + specialize (IH w (Fulfilled l)). destruct (kp w). apply IH. constructor.
    + specialize (Hp w). destruct (kp w) as [w1 p1]. simpl in Hp. subst w1.
      specialize (Hq1 w). destruct (kq w). exact Hq1.
    + specialize (IH w). specialize (Hp w). destruct (kp w) as [w1 p1].
      specialize (Hq2 w1). destruct (kq w1) as [w2 q2]. apply IH. exact Hq2.
Qed.

Lemma Quiet_idle {E A} (a : A) (n : nat) (p : Promise World E A) :
  Quiet a p -> Quiet a (idle n p).
Proof.
  intro H. induction n as [| n IH]; simpl; [exact H |].
  constructor; intro w; [reflexivity | exact IH].
Qed.

Lemma Quiet_stutter {E A} (a : A) (plan : nat -> nat) (p : Promise World E A) :
  Quiet a p -> forall k, Quiet a (stutter plan k p).
Proof.
  induction 1 as [| r Hfst _ IH]; intro k; simpl; apply Quiet_idle.
  - constructor.
  - constructor; intro w.
    + specialize (Hfst w). destruct (r w). exact Hfst.
    + specialize (IH w (S k)). destruct (r w). exact IH.
Qed.

Lemma Quiet_Promise_all_stagger {E A} (timing : nat -> nat -> nat) (l : list A)
  (ps : list (Promise World E A)) :
  Forall2 (fun a p => Quiet a p) l ps ->
  forall i, Quiet l (Promise_all (stagger timing i ps)).
Proof.
  induction 1 as [| a p l ps Ha _ IH]; intro i; simpl.
  - constructor.
  - apply Quiet_join_cons; [apply Quiet_stutter, Ha | apply IH].
Qed.

Lemma run_liftResult_Quiet {E T} {R : Resolve World E T} (r : Result E T)
  (w : World) :
  match r with Ok v => resolve v = Fulfilled v | Err _ => True end ->
  fst (ResultAsync.run (E' := E) (ResultAsync.liftResult r) w) = w
  /\ Quiet r (snd (ResultAsync.run (E' := E) (ResultAsync.liftResult r) w)).
Proof.
  destruct r as [e|v]; intro Hr; simpl; [| rewrite Hr; simpl]; split;
    try reflexivity.
  - constructor.
  - constructor; intro w'; simpl; [reflexivity | constructor].
Qed.

Lemma start_all_lifted {E T} {R : Resolve World E T} (rs : list (Result E T))
  (w : World) :
  Forall (fun r => match r with Ok v => resolve v = Fulfilled v | Err _ => True end) rs ->
  exists ps,
    start_all (List.map ResultAsync.liftResult rs) w = (w, ps)
    /\ Forall2 (fun r p => Quiet r p) rs ps.
Proof.
  induction 1 as [| r rs Hr _ IH].
  - exists []. split; [reflexivity | constructor].
  - destruct IH as (ps & Hs & Hq).
    destruct (run_liftResult_Quiet r w Hr) as [Hw Hq1].
    cbn [List.map start_all].
    destruct (ResultAsync.run (ResultAsync.liftResult r) w) as [w1 p].
    simpl in Hw, Hq1. subst w1. rewrite Hs.
    exists (p :: ps). split; [reflexivity | constructor; assumption].
Qed.

Lemma one_at_a_time_lifted {E T} {R : Resolve World E T} (rs : list (Result E T)) :
  Forall (fun r => match r with Ok v => resolve v = Fulfilled v | Err _ => True end) rs ->
  forall (res : list T) (w : World),
  one_at_a_time (List.map ResultAsync.liftResult rs) res w
  = (w, Result.sequence_loop rs res).
Proof.
  induction 1 as [| [e|v] rs Hr _ IH]; intros res w; cbn [List.map one_at_a_time].
  - reflexivity.
  - reflexivity.
  - replace (ResultAsync.settle (ResultAsync.liftResult (Ok v)) w)
      with (w, Normal (X := E) (Ok (E := E) v)).
    + apply IH.
    + unfold ResultAsync.settle. simpl. rewrite Hr. reflexivity.
Qed.

(** X23: on outcomes that are already known and whose values are not
    thenables (resolving them gives them back at once), the four collection
    operators are their synchronous counterparts: [sequence] and [all] of
    lifted outcomes both resolve to [Result.sequence] of them, [errs] and
    [oks] to [Result.errs] and [Result.oks], and none touches the world,
    whatever the host's scheduling. *)
Theorem collections_of_lifted {E T} {R : Resolve World E T}
  (timing : nat -> nat -> nat) (rs : list (Result E T)) (w : World)
  (Hplain : Forall (fun r => match r with
                             | Ok v => resolve v = Fulfilled v
                             | Err _ => True
                             end) rs) :
  ResultAsync.settle (ResultAsync.sequence (List.map ResultAsync.liftResult rs)) w
  = (w, Normal (Result.sequence rs))
  /\ ResultAsync.settle (ResultAsync.all timing (List.map ResultAsync.liftResult rs)) w
     = (w, Normal (Result.sequence rs))
  /\ awaited (ResultAsync.errs (E' := E) timing (List.map ResultAsync.liftResult rs)) w
     = (w, Normal (Result.errs rs))
  /\ awaited (ResultAsync.oks (E' := E) timing (List.map ResultAsync.liftResult rs)) w
     = (w, Normal (Result.oks rs)).
Proof.
  split.
  - rewrite settle_sequence, (one_at_a_time_lifted rs Hplain). reflexivity.
  - destruct (start_all_lifted rs w Hplain) as (ps & Hs & Hq).
    pose proof (Quiet_drain _ _ (Quiet_Promise_all_stagger timing _ _ Hq 0) w) as Hd.
    split; [| split].
    + rewrite settle_all, Hs, Hd. reflexivity.
    + unfold awaited, ResultAsync.errs. rewrite run_all_start_all, Hs.
      rewrite drain_then_, Hd. reflexivity.
    + unfold awaited, ResultAsync.oks. rewrite run_all_start_all, Hs.
      rewrite drain_then_, Hd. reflexivity.
Qed.

End CombinatorFacts.

(* ================================================================= *)
(** ** Thenables and scheduling at the inputs of the test suite *)

(** The test of [extend]: [liftResult(Ok(5)).extend((x) => x.orDefault(6))]
    resolves to [Ok(5)], the value of the promise the function returns, and
    on [Err('Error')] the function is not called. *)
Example extend_test_orDefault :
  ResultAsync.settle
    (ResultAsync.extend orDefault_six (ResultAsync.liftResult (Ok 5%Z))) []
  = ([], Normal (Ok (Plain 5%Z)))
  /\ ResultAsync.settle
       (ResultAsync.extend orDefault_six (ResultAsync.liftResult (Err "Error"))) []
     = ([], Normal (Err "Error")).
Proof. split; reflexivity. Qed.

(** [map] and [bimap] with a function that returns a promise: the promise is
    followed, to its value or to its rejection. *)
Example map_follows_thenable :
  ResultAsync.settle
    (ResultAsync.map successor_later (ResultAsync.liftResult (Ok 5%Z))) []
  = ([], Normal (Ok (Plain 6%Z)))
  /\ ResultAsync.settle
       (ResultAsync.map rejecting_later (ResultAsync.liftResult (Ok 5%Z))) []
     = ([], Normal (Err "late"))
  /\ ResultAsync.settle
       (ResultAsync.bimap (fun e => ret e) rejecting_later
          (ResultAsync.liftResult (Ok 5%Z : Result string Z))) []
     = ([], Normal (Err "late")).
Proof. repeat split. Qed.

(** [orDefault] with a default that is a rejecting promise, on a failure:
    the promise of [orDefault] rejects. *)
Example orDefault_follows_thenable :
  awaited
    (ResultAsync.orDefault (E' := string) (Thenable (after 1 (Thrown "late")))
       (ResultAsync.liftResult
          (Err "x" : Result string (Deferrable Log string)))) []
  = ([], Thrown "late").
Proof. reflexivity. Qed.

(** [liftResult(Ok(p)).chain(f)] with [p = Promise.resolve(1)]: [f] receives
    [1], not [p]. *)
Example chain_unit_follows_thenable :
  ResultAsync.settle
    (ResultAsync.chain
       (fun v : Deferrable Log string =>
          ResultAsync.promiseLike
            (ResultAsync.liftResult
               (Ok (match v with Plain _ => "number" | Thenable _ => "promise" end)
                : Result string string)))
       (ResultAsync.liftResult (Ok (Thenable (Fulfilled 1%Z))))) ([] : Log)
  = ([], Normal (Ok "number")).
Proof. reflexivity. Qed.

(** The failures of the test of [all] under a scheduling that holds the
    second element back: the result is the same, by position. *)
Example all_under_another_timing :
  ResultAsync.settle
    (ResultAsync.all (fun i _ => 7 * i) [slow_failure; fast_failure]) []
  = (["slow"; "fast"], Normal (Err "A"))
  /\ ResultAsync.settle
       (ResultAsync.all (fun i k => 3 - i + k) [slow_failure; fast_failure]) []
     = (["slow"; "fast"], Normal (Err "A")).
Proof. split; reflexivity. Qed.

(** The collection operators on known outcomes with a success, a failure and
    a success. *)
Lemma collections_of_lifted_witness :
  ResultAsync.settle
    (ResultAsync.sequence
       (List.map ResultAsync.liftResult
          [Ok (Plain 1%Z); Err "no"; Ok (Plain 2%Z)])) ([] : Log)
  = ([], Normal (Err "no"))
  /\ ResultAsync.settle
       (ResultAsync.all no_delay
          (List.map ResultAsync.liftResult
             [Ok (Plain 1%Z); Err "no"; Ok (Plain 2%Z)])) ([] : Log)
     = ([], Normal (Err "no"))
  /\ awaited
       (ResultAsync.errs (E' := string) no_delay
          (List.map ResultAsync.liftResult
             [Ok (Plain 1%Z); Err "no"; Ok (Plain 2%Z)])) ([] : Log)
     = ([], Normal ["no"])
  /\ awaited
       (ResultAsync.oks (E' := string) no_delay
          (List.map ResultAsync.liftResult
             [Ok (Plain 1%Z); Err "no"; Ok (Plain 2%Z)])) ([] : Log)
     = ([], Normal [Plain 1%Z; Plain 2%Z]).
Proof.
  apply (collections_of_lifted no_delay
           [Ok (Plain 1%Z); Err "no"; Ok (Plain 2%Z)] ([] : Log)).
  repeat constructor.
Defined.

(** [map] on a value that is no thenable: the identity, and two maps in a row. *)
Lemma map_run_witness :
  ResultAsync.settle (ResultAsync.map (fun v => ret v) plain_five) []
  = ResultAsync.settle plain_five []
  /\ ResultAsync.settle (ResultAsync.map bumping (ResultAsync.map bumping plain_five)) []
     = ResultAsync.settle
         (ResultAsync.map (fun v => bind (bumping v) bumping) plain_five) [].
Proof.
  split.
  - apply (proj1 (proj2 (map_run bumping bumping plain_five []))).
    intros w1 v H. vm_compute in H. injection H as _ <-. reflexivity.
  - apply (proj1 (proj2 (proj2 (map_run bumping bumping plain_five [])))).
    intros w1 v w2 y H Hf. vm_compute in H. injection H as <- <-.
    vm_compute in Hf. injection Hf as _ <-. reflexivity.
Defined.

(** [bimap] with functions that return values that are no thenables. *)
Lemma bimap_run_witness :
  ResultAsync.settle
    (ResultAsync.bimap (fun e : string => ret (e ++ "!")) (fun v => ret (bump v))
       plain_five) []
  = (let (w1, c) := produce plain_five [] in
     (w1, Normal (Result.bimap (fun e : string => e ++ "!") bump (collapse c))))
  /\ ResultAsync.settle
       (ResultAsync.bimap (fun e : string => bind (say "f") (fun _ => ret (e ++ "!")))
          (fun v => ret (bump v)) plain_five) []
     = ResultAsync.settle
         (ResultAsync.mapErr (fun e : string => bind (say "f") (fun _ => ret (e ++ "!")))
            (ResultAsync.map (fun v => ret (bump v)) plain_five)) [].
Proof.
  split.
  - apply (proj1 (proj2 (bimap_run (fun e : string => ret (e ++ "!"))
                           (fun v => ret (bump v))
                           (fun e : string => e ++ "!") bump plain_five []))).
    intros w1 v H. vm_compute in H. injection H as _ <-. reflexivity.
  - apply (proj2 (proj2 (bimap_run
                           (fun e : string => bind (say "f") (fun _ => ret (e ++ "!")))
                           (fun v => ret (bump v))
                           (fun e : string => e ++ "!") bump plain_five []))).
    + intros w1 v H. vm_compute in H. injection H as _ <-. reflexivity.
    + intros w1 v H. vm_compute in H. injection H as _ <-. reflexivity.
Defined.

(** [chain] on numbers: the outcome of [f(v)], left and right identity. *)
Lemma chain_run_witness :
  ResultAsync.settle
    (ResultAsync.chain (fun _ : Deferrable Log string => ResultAsync.promiseLike counted_success)
       plain_five) []
  = (let (w1, c) := produce plain_five [] in
     match c with
     | Normal _ => ResultAsync.settle counted_success w1
     | Thrown e => (w1, Normal (Err e))
     end)
  /\ ResultAsync.settle
       (ResultAsync.chain (fun _ : Deferrable Log string => ResultAsync.promiseLike counted_success)
          (ResultAsync.liftResult (Ok (Plain 5%Z)))) []
     = ResultAsync.settle counted_success []
  /\ ResultAsync.settle
       (ResultAsync.chain
          (fun x : Z => ResultAsync.promiseLike (ResultAsync.liftResult (Ok x)))
          counted_success) []
     = ResultAsync.settle counted_success [].
Proof.
  pose proof (chain_run
                (fun _ : Deferrable Log string => ResultAsync.promiseLike counted_success)
                (fun _ : Deferrable Log string => counted_success)
                (fun _ : Z => slow_failure) (Plain 5%Z) plain_five [])
    as (_ & Hlaws & _).
  destruct (Hlaws (fun y => eq_refl)) as (Hrun & _ & Hleft & _).
  split; [exact Hrun |]. split; [exact (Hleft eq_refl) |].
  apply (proj2 (proj2 (chain_run
                  (fun x : Z => ResultAsync.promiseLike (ResultAsync.liftResult (Ok x)))
                  (fun x : Z => ResultAsync.liftResult (Ok x))
                  (fun _ : Z => slow_failure) 0%Z counted_success []))).
  intro x. reflexivity.
Defined.

(** [ap] of [(x) => x + 1] on the counted success of the tests. *)
Lemma ap_run_witness :
  ResultAsync.settle
    (ResultAsync.ap (Fulfilled (Ok (fun x : Z => (x + 1)%Z))) counted_success) []
  = (["fn"], Normal (Ok 3%Z)).
Proof.
  exact (proj1 (proj2 (ap_run (Fulfilled (Ok (fun x : Z => (x + 1)%Z)))
                         counted_success [])) (fun y => eq_refl)).
Defined.

(** The outcome [extend] hands to its function, on a number. *)
Lemma extend_run_witness :
  ResultAsync.settle
    (ResultAsync.liftResult (Ok (Plain 5%Z))
     : ResultAsync Log string (Deferrable Log string)) []
  = ([], Normal (Ok (Plain 5%Z))).
Proof.
  exact (proj2 (proj2 (extend_run (T2 := Z) (fun _ => ret 0%Z) plain_five []))
           (Plain 5%Z) [] eq_refl).
Defined.

(** [orDefault] and [errOrDefault] on the slow failure of the tests. *)
Lemma orDefault_run_witness :
  awaited (ResultAsync.orDefault (E' := string) 5%Z slow_failure) []
  = (["slow"], Normal 5%Z)
  /\ awaited (ResultAsync.errOrDefault (E' := string) "none" slow_failure) []
     = (["slow"], Normal "A").
Proof.
  split.
  - exact (proj1 (proj2 (proj2 (orDefault_run (E' := string) 5%Z "none" slow_failure [])))
             (fun v => eq_refl)).
  - exact (proj2 (proj2 (proj2 (orDefault_run (E' := string) 5%Z "none" slow_failure [])))
             (fun v => eq_refl)).
Defined.
